(** * KEGG pathway visualisation tool (KEGGAPP.JS): a shallow embedding

    The development follows the script function by function: the
    abundance normaliser ([loadJSON], [getHeatmapColor]), the tree builder
    ([createGeneNode], [createNode], [renderJSON]) and the URL / selection
    model ([updateKEGGUrl], [addECToCustomURL], [generateHeatmapKEGGUrl] and
    the click handlers).

    Conventions of the embedding.
    - A JavaScript string is a [string] whose characters are UTF-16 code
      units below 256; code units above that are outside the model.
    - A JavaScript number is a binary64 value, written as the rational it
      stands for, or [NaN] or one of the two infinities.  Subtraction,
      multiplication and division round to the nearest binary64 value and
      overflow to an infinity.  The sign of zero is not modelled.
    - An object is the list of its own enumerable entries in [Object.entries]
      order.  A property read on the abundance object also finds the members
      of [Object.prototype].
    - The DOM is reduced to the values the script reads back from it.  The
      value of a text input written through [innerHTML] is the attribute as
      the parser reads it; the value of a colour input is the sanitised
      colour. *)

From Stdlib Require Import Bool List String Ascii ZArith QArith Qround Qabs Qpower Lia Lqa.
Import ListNotations.

Local Open Scope string_scope.
Local Open Scope Z_scope.


(* ================================================================== *)
(** ** JavaScript strings *)

Module JSString.

Definition code (c : ascii) : Z := Z.of_N (N_of_ascii c).

(** White space and line terminators removed by [String.prototype.trim],
    among the code units below 256: TAB, LF, VT, FF, CR, SP and NBSP. *)
Definition is_ws (c : ascii) : bool :=
  let n := code c in
  ((9 <=? n) && (n <=? 13)) || (n =? 32) || (n =? 160).

Definition is_empty (s : string) : bool :=
  match s with EmptyString => true | String _ _ => false end.

Fixpoint trimStart (s : string) : string :=
  match s with
  | EmptyString => EmptyString
  | String c s' => if is_ws c then trimStart s' else s
  end.

Fixpoint trimEnd (s : string) : string :=
  match s with
  | EmptyString => EmptyString
  | String c s' =>
      let t := trimEnd s' in
      if is_ws c && is_empty t then EmptyString else String c t
  end.

(** [s.trim()] *)
Definition trim (s : string) : string := trimEnd (trimStart s).

(** Truthiness of a string: non-empty. *)
Definition truthy (s : string) : bool := negb (is_empty s).

(** [sep.join] over an array of strings. *)
Fixpoint join (sep : string) (l : list string) : string :=
  match l with
  | [] => ""
  | [x] => x
  | x :: l' => x ++ sep ++ join sep l'
  end.

(** [s.padStart(n, '0')] *)
Fixpoint zeros (n : nat) : string :=
  match n with O => "" | S n' => String "0" (zeros n') end.

Definition padStart0 (n : nat) (s : string) : string :=
  zeros (n - String.length s) ++ s.

(** [s.toUpperCase()], on the ASCII letters. *)
Definition upper_char (c : ascii) : ascii :=
  let n := code c in
  if (97 <=? n) && (n <=? 122) then ascii_of_N (Z.to_N (n - 32)) else c.

Fixpoint toUpperCase (s : string) : string :=
  match s with
  | EmptyString => EmptyString
  | String c s' => String (upper_char c) (toUpperCase s')
  end.

(** [s.startsWith(pat)] *)
Fixpoint starts_with (pat s : string) : bool :=
  match pat, s with
  | EmptyString, _ => true
  | String a pat', String b s' => Ascii.eqb a b && starts_with pat' s'
  | String _ _, EmptyString => false
  end.

(** [s.substring(n)] *)
Fixpoint drop (n : nat) (s : string) : string :=
  match n, s with
  | S n', String _ s' => drop n' s'
  | _, _ => s
  end.

Fixpoint take (n : nat) (s : string) : string :=
  match n, s with
  | S n', String c s' => String c (take n' s')
  | _, _ => ""
  end.

(** [s.replace(pat, by)] with a non-empty string pattern: only the first
    occurrence is replaced. *)
Fixpoint replace_first (pat by_ : string) (s : string) : string :=
  match s with
  | EmptyString => EmptyString
  | String c s' =>
      if starts_with pat s then by_ ++ drop (String.length pat) s
      else String c (replace_first pat by_ s')
  end.

(** [s.slice(0, -1)] *)
Fixpoint slice_init (s : string) : string :=
  match s with
  | EmptyString => EmptyString
  | String c EmptyString => EmptyString
  | String c s' => String c (slice_init s')
  end.

Definition is_digit (c : ascii) : bool :=
  let n := code c in (48 <=? n) && (n <=? 57).

(** Hexadecimal digits of a natural number, most significant first. *)
Definition hex_digit (upper : bool) (d : Z) : ascii :=
  if d <? 10 then ascii_of_N (Z.to_N (48 + d))
  else ascii_of_N (Z.to_N ((if upper then 55 else 87) + d)).

(** Digits of a non-negative integer in base 10 or 16, most significant
    first; [fuel] bounds the number of digits. *)
Fixpoint digits_fuel (fuel : nat) (base : Z) (upper : bool) (z : Z)
         (acc : string) : string :=
  match fuel with
  | O => acc
  | S f =>
      let acc' := String (hex_digit upper (z mod base)) acc in
      if z <? base then acc' else digits_fuel f base upper (z / base) acc'
  end.

(** A non-negative [z] has at most [log2 z + 1] digits. *)
Definition digits (base : Z) (upper : bool) (z : Z) : string :=
  digits_fuel (S (Z.to_nat (Z.log2 z))) base upper z "".

Definition signed_digits (base : Z) (upper : bool) (z : Z) : string :=
  if z <? 0 then String "-" (digits base upper (- z)) else digits base upper z.

Definition hex_of_Z : Z -> string := signed_digits 16 false.
Definition dec_of_Z : Z -> string := signed_digits 10 false.

(** [encodeURIComponent]: every code unit except the unreserved marks
    [A-Z a-z 0-9 - _ . ! ~ * ' ( )] is replaced by the percent escapes of
    its UTF-8 bytes (one byte below 128, two bytes from 128 to 255). *)
Definition is_alnum (c : ascii) : bool :=
  let n := code c in
  ((48 <=? n) && (n <=? 57)) || ((65 <=? n) && (n <=? 90))
  || ((97 <=? n) && (n <=? 122)).

Definition uri_unreserved (c : ascii) : bool :=
  is_alnum c ||
  existsb (Ascii.eqb c) ["-"; "_"; "."; "!"; "~"; "*"; "'"; "("; ")"]%char.

Definition pct (b : Z) : string :=
  String "%" (String (hex_digit true (b / 16))
               (String (hex_digit true (b mod 16)) "")).

Definition encode_unit (c : ascii) : string :=
  let n := code c in
  if uri_unreserved c then String c ""
  else if n <? 128 then pct n
  else pct (192 + n / 64) ++ pct (128 + n mod 64).

Fixpoint encodeURIComponent (s : string) : string :=
  match s with
  | EmptyString => EmptyString
  | String c s' => encode_unit c ++ encodeURIComponent s'
  end.

End JSString.
Import JSString.


(* ================================================================== *)
(** ** JavaScript numbers *)

Module JSNumber.

(** A number is a binary64 value, written as the rational it stands for;
    [NaN] and the two infinities apart.  The results of the arithmetic
    operators are rounded to binary64 ([round64]). *)
Inductive num : Type :=
| Fin (q : Q)
| PInf
| NInf
| NaN.

Definition of_Z (z : Z) : num := Fin (inject_Z z).

Definition is_zero (q : Q) : bool := Qeq_bool q 0.
Definition is_neg (q : Q) : bool := negb (Qle_bool 0 q).

(** Truthiness of a number: everything except zero and [NaN]. *)
Definition truthy (x : num) : bool :=
  match x with
  | Fin q => negb (is_zero q)
  | PInf | NInf => true
  | NaN => false
  end.

(** Sign of a number that is not [NaN]: [true] for negative. *)
Definition negative (x : num) : bool :=
  match x with
  | Fin q => is_neg q
  | NInf => true
  | _ => false
  end.

Definition inf_of_sign (s : bool) : num := if s then NInf else PInf.

Definition pow2 (e : Z) : Q := Qpower 2 e.

(** The binary exponent of a positive rational: [2^e <= a < 2^(e+1)]. *)
Definition ilog2 (a : Q) : Z :=
  let e0 := Z.log2 (Qnum a) - Z.log2 (Zpos (Qden a)) in
  if Qle_bool (pow2 e0) a then e0 else e0 - 1.

(** The nearest integer, ties to even. *)
Definition rne (m : Q) : Z :=
  let f := Qfloor m in
  match Qcompare (m - inject_Z f) (1 # 2) with
  | Lt => f
  | Gt => f + 1
  | Eq => if Z.even f then f else f + 1
  end.

(** The spacing of binary64 around [a]: 53 significant bits, and the
    subnormal spacing [2^-1074] below [2^-1022]. *)
Definition ulp (a : Q) : Q := pow2 (Z.max (ilog2 a) (-1022) - 52).

Definition round_pos (a : Q) : Q :=
  (inject_Z (rne (a / ulp a)) * ulp a)%Q.

Definition pack (neg : bool) (r : Q) : num :=
  if Qle_bool (pow2 1024) r then inf_of_sign neg
  else Fin (Qred (if neg then - r else r)).

(** The binary64 number nearest to the real [q], ties to even, with
    overflow to an infinity. *)
Definition round64 (q : Q) : num :=
  match Qcompare q 0 with
  | Eq => Fin 0
  | Gt => pack false (round_pos q)
  | Lt => pack true (round_pos (- q))
  end.

(** A decimal literal of a JSON document. *)
Definition literal (q : Q) : num := round64 q.

(** [x - y] *)
Definition sub (x y : num) : num :=
  match x, y with
  | NaN, _ | _, NaN => NaN
  | Fin a, Fin b => round64 (a - b)
  | Fin _, PInf => NInf
  | Fin _, NInf => PInf
  | PInf, PInf => NaN
  | PInf, _ => PInf
  | NInf, NInf => NaN
  | NInf, _ => NInf
  end.

(** [x * y] *)
Definition mul (x y : num) : num :=
  match x, y with
  | NaN, _ | _, NaN => NaN
  | Fin a, Fin b => round64 (a * b)
  | Fin a, i | i, Fin a =>
      if is_zero a then NaN else inf_of_sign (xorb (is_neg a) (negative i))
  | i, j => inf_of_sign (xorb (negative i) (negative j))
  end.

(** [x / y]; a zero divisor counts as positive zero. *)
Definition div (x y : num) : num :=
  match x, y with
  | NaN, _ | _, NaN => NaN
  | Fin a, Fin b =>
      if is_zero b then
        if is_zero a then NaN else inf_of_sign (is_neg a)
      else round64 (a / b)
  | Fin _, _ => Fin 0
  | i, Fin b => inf_of_sign (xorb (negative i) (is_neg b))
  | _, _ => NaN
  end.

(** The larger and the smaller of two numbers, [NaN] being contagious. *)
Definition max2 (x y : num) : num :=
  match x, y with
  | NaN, _ | _, NaN => NaN
  | PInf, _ | _, PInf => PInf
  | NInf, z | z, NInf => z
  | Fin a, Fin b => if Qle_bool a b then Fin b else Fin a
  end.

Definition min2 (x y : num) : num :=
  match x, y with
  | NaN, _ | _, NaN => NaN
  | NInf, _ | _, NInf => NInf
  | PInf, z | z, PInf => z
  | Fin a, Fin b => if Qle_bool a b then Fin a else Fin b
  end.

(** [Math.max(...l)] and [Math.min(...l)]: the neutral elements are
    [-Infinity] and [Infinity]. *)
Definition Math_max (l : list num) : num := fold_left max2 l NInf.
Definition Math_min (l : list num) : num := fold_left min2 l PInf.

(** The value of [Math.round]: an integer, or the argument itself when it
    is not finite. *)
Inductive rounded : Type :=
| RInt (z : Z)
| RPInf
| RNInf
| RNaN.

(** [Math.round(x)]: the nearest integer, ties towards [+Infinity]. *)
Definition Math_round (x : num) : rounded :=
  match x with
  | Fin q => RInt (Qfloor (q + (1 # 2)))
  | PInf => RPInf
  | NInf => RNInf
  | NaN => RNaN
  end.

(** [n.toString(16)] on a rounded number. *)
Definition toString16 (r : rounded) : string :=
  match r with
  | RInt z => hex_of_Z z
  | RPInf => "Infinity"
  | RNInf => "-Infinity"
  | RNaN => "NaN"
  end.

Definition num_eqb (x y : num) : bool :=
  match x, y with
  | Fin a, Fin b => Qeq_bool a b
  | PInf, PInf | NInf, NInf => true
  | _, _ => false
  end.

(** The decimal exponent of a positive rational: [10^e <= a < 10^(e+1)]. *)
Definition ilog10 (a : Q) : Z :=
  let e0 := ilog2 a * 30103 / 100000 in
  let e1 := if Qle_bool (Qpower 10 (e0 + 1)) a then e0 + 1 else e0 in
  if Qle_bool (Qpower 10 e1) a then e1 else e1 - 1.

(** [Number::toString] of a positive number [a]: the digits [s] and the
    exponent [n] with [s * 10^(n-k)] reading back as [a], for the least
    number [k] of digits; of two such [s] the one nearer to [a], the even one
    on a tie. *)
Definition candidate (a : Q) (n k : Z) : option (Z * Z) :=
  let scale := Qpower 10 (n - k) in
  let lo := Qfloor (a / scale) in
  let hi := lo + 1 in
  let reads s := num_eqb (round64 (inject_Z s * scale)) (Fin a) in
  let with_lo := (lo, n) in
  let with_hi := if hi =? 10 ^ k then (1, n + 1) else (hi, n) in
  match (10 ^ (k - 1) <=? lo) && reads lo, reads hi with
  | true, true =>
      match Qcompare (a - inject_Z lo * scale) (inject_Z hi * scale - a) with
      | Lt => Some with_lo
      | Gt => Some with_hi
      | Eq => Some (if Z.even lo then with_lo else with_hi)
      end
  | true, false => Some with_lo
  | false, true => Some with_hi
  | false, false => None
  end.

Fixpoint shortest (fuel : nat) (a : Q) (n k : Z) : Z * Z :=
  match fuel with
  | O => (Qfloor (a / Qpower 10 (n - k)), n)
  | S f =>
      match candidate a n k with
      | Some r => r
      | None => shortest f a n (k + 1)
      end
  end.

Fixpoint strip_zeros (fuel : nat) (s : Z) : Z :=
  match fuel with
  | O => s
  | S f => if (s mod 10 =? 0) && (0 <? s) then strip_zeros f (s / 10) else s
  end.

Definition toString_pos (a : Q) : string :=
  let (s0, n) := shortest 17 a (ilog10 a + 1) 1 in
  let ds := dec_of_Z (strip_zeros 17 s0) in
  let k := Z.of_nat (String.length ds) in
  if (k <=? n) && (n <=? 21) then ds ++ zeros (Z.to_nat (n - k))
  else if (0 <? n) && (n <=? 21) then
    take (Z.to_nat n) ds ++ "." ++ drop (Z.to_nat n) ds
  else if (-6 <? n) && (n <=? 0) then "0." ++ zeros (Z.to_nat (- n)) ++ ds
  else
    let e := n - 1 in
    (if k =? 1 then ds else take 1 ds ++ "." ++ drop 1 ds)
    ++ "e" ++ (if e <? 0 then "-" else "+") ++ dec_of_Z (Z.abs e).

(** [String(x)] for a number. *)
Definition toString (x : num) : string :=
  match x with
  | Fin q =>
      if is_zero q then "0"
      else if is_neg q then "-" ++ toString_pos (- q)
      else toString_pos q
  | PInf => "Infinity"
  | NInf => "-Infinity"
  | NaN => "NaN"
  end.

(** [x.toFixed(2)]: the decimal with two fraction digits nearest to [x],
    the larger one on a tie; from [1e21] on, the digits of [String(x)]. *)
Definition toFixed2 (x : num) : string :=
  match x with
  | Fin q =>
      let a := Qabs q in
      (if is_neg q then "-" else "")
      ++ (if Qle_bool (Qpower 10 21) a then toString_pos a
          else
            let n := Qfloor (a * 100 + (1 # 2)) in
            dec_of_Z (n / 100) ++ "." ++ padStart0 2 (dec_of_Z (n mod 100)))
  | PInf => "Infinity"
  | NInf => "-Infinity"
  | NaN => "NaN"
  end.

End JSNumber.
Import JSNumber.

(* ================================================================== *)
(** ** The abundance index *)

Module Abundance.

(** A value read from the abundance object: a score, one of the scalars
    that are not numbers, or an object that is not an array (a nested
    object of the document, or a member inherited from [Object.prototype]).
    Strings and arrays are left out: the script would coerce them with
    [ToNumber]. *)
Inductive aval : Type :=
| ANum (x : num)
| ABool (b : bool)
| ANull
| AObject.

(** The object [abundanceData]: own entries in insertion order. *)
Definition index := list (string * aval).

(** The own property [k] of [o]. *)
Fixpoint own (o : index) (k : string) : option aval :=
  match o with
  | [] => None
  | (k', v) :: o' => if String.eqb k' k then Some v else own o' k
  end.

(** The names every object inherits from [Object.prototype]: eleven
    functions and the accessor [__proto__]. *)
Definition prototype_keys : list string :=
  [ "constructor"; "hasOwnProperty"; "isPrototypeOf";
    "propertyIsEnumerable"; "toLocaleString"; "toString"; "valueOf";
    "__defineGetter__"; "__defineSetter__"; "__lookupGetter__";
    "__lookupSetter__"; "__proto__" ].

Definition inherited (k : string) : bool :=
  existsb (String.eqb k) prototype_keys.

(** [o[k]]: an own property, else a property of [Object.prototype];
    [None] is [undefined]. *)
Definition get (o : index) (k : string) : option aval :=
  match own o k with
  | Some v => Some v
  | None => if inherited k then Some AObject else None
  end.

(** [o[k] = v]: an existing key keeps its place, a new one goes last. *)
Fixpoint set (o : index) (k : string) (v : aval) : index :=
  match o with
  | [] => [(k, v)]
  | (k', v') :: o' =>
      if String.eqb k' k then (k', v) :: o' else (k', v') :: set o' k v
  end.

(** Truthiness of [o[k]]. *)
Definition truthy (v : option aval) : bool :=
  match v with
  | Some (ANum x) => JSNumber.truthy x
  | Some (ABool b) => b
  | Some AObject => true
  | Some ANull | None => false
  end.

(** [ToNumber], as applied by the operator [-]. *)
Definition ToNumber (v : option aval) : num :=
  match v with
  | Some (ANum x) => x
  | Some (ABool true) => of_Z 1
  | Some (ABool false) | Some ANull => of_Z 0
  | Some AObject | None => NaN
  end.

(** [Object.values(o).filter(v => typeof v === 'number')] *)
Fixpoint numbers (o : index) : list num :=
  match o with
  | [] => []
  | (_, ANum x) :: o' => x :: numbers o'
  | _ :: o' => numbers o'
  end.

(** The part of [loadJSON] that stores the abundance document and its
    bounds, lines 84-87. *)
Definition loadJSON (kegg_categories : index) : index :=
  let abundanceData := kegg_categories in
  let nums := numbers abundanceData in
  let abundanceData := set abundanceData "_max" (ANum (Math_max nums)) in
  let abundanceData := set abundanceData "_min" (ANum (Math_min nums)) in
  abundanceData.

(** The two channels and the colour string of [getHeatmapColor]. *)
Definition ratio (abundanceData : index) (kNumber : string) : num :=
  div (sub (ToNumber (get abundanceData kNumber))
           (ToNumber (get abundanceData "_min")))
      (sub (ToNumber (get abundanceData "_max"))
           (ToNumber (get abundanceData "_min"))).

Definition hex_color (r b : rounded) : string :=
  toUpperCase ("#" ++ padStart0 2 (toString16 r) ++ "00"
                   ++ padStart0 2 (toString16 b)).

Definition getHeatmapColor (abundanceData : index) (kNumber : string)
  : string :=
  if negb (truthy (get abundanceData kNumber)) then "#FFFFFF"
  else
    let ratio := ratio abundanceData kNumber in
    let r := Math_round (mul ratio (of_Z 255)) in
    let b := Math_round (mul (sub (of_Z 1) ratio) (of_Z 255)) in
    hex_color r b.

(** Reading a colour [#RRGGBB] back: its red, green and blue channels. *)
Definition hex_value (c : ascii) : option Z :=
  let n := code c in
  if is_digit c then Some (n - 48)
  else if (65 <=? n) && (n <=? 70) then Some (n - 55)
  else if (97 <=? n) && (n <=? 102) then Some (n - 87)
  else None.

Definition hex_byte (h l : ascii) : option Z :=
  match hex_value h, hex_value l with
  | Some a, Some b => Some (16 * a + b)
  | _, _ => None
  end.

Definition channels (color : string) : option (Z * Z * Z) :=
  match color with
  | String "#" (String r1 (String r2 (String g1 (String g2
      (String b1 (String b2 EmptyString)))))) =>
      match hex_byte r1 r2, hex_byte g1 g2, hex_byte b1 b2 with
      | Some r, Some g, Some b => Some (r, g, b)
      | _, _, _ => None
      end
  | _ => None
  end.

Definition red (color : string) : option Z :=
  option_map (fun c => fst (fst c)) (channels color).
Definition blue (color : string) : option Z :=
  option_map snd (channels color).

End Abundance.
Import Abundance.

(* ================================================================== *)
(** ** Exceptions *)

Inductive exn : Type :=
| TypeError.

Inductive outcome (A : Type) : Type :=
| Ok (a : A)
| Throw (e : exn).
Arguments Ok {A} a.
Arguments Throw {A} e.

Definition bind {A B : Type} (m : outcome A) (f : A -> outcome B) : outcome B :=
  match m with
  | Ok a => f a
  | Throw e => Throw e
  end.

Notation "x <- m ;; k" := (bind m (fun x => k))
  (at level 61, m at next level, right associativity).

(** [l.filter(p)], [l.some(p)] and a collecting [l.forEach(f)] for callbacks
    that may throw. *)
Fixpoint filterM {A : Type} (p : A -> outcome bool) (l : list A)
  : outcome (list A) :=
  match l with
  | [] => Ok []
  | x :: l' =>
      b <- p x ;;
      r <- filterM p l' ;;
      Ok (if b then x :: r else r)
  end.

Fixpoint someM {A : Type} (p : A -> outcome bool) (l : list A) : outcome bool :=
  match l with
  | [] => Ok false
  | x :: l' =>
      b <- p x ;;
      if b then Ok true else someM p l'
  end.

Fixpoint appendM {A B : Type} (f : A -> outcome (list B)) (l : list A)
  : outcome (list B) :=
  match l with
  | [] => Ok []
  | x :: l' =>
      ys <- f x ;;
      r <- appendM f l' ;;
      Ok (ys ++ r)%list
  end.

Definition opt_list {A : Type} (o : option A) : list A :=
  match o with Some x => [x] | None => [] end.

(* ================================================================== *)
(** ** The pathway document and the tree builder *)

Module Tree.

(** A parsed JSON value. *)
#[local] Unset Elimination Schemes.
Inductive json : Type :=
| JNull
| JBool (b : bool)
| JNum (x : num)
| JStr (s : string)
| JArr (l : list json)
| JObj (m : list (string * json)).

#[local] Set Elimination Schemes.

Definition is_string (v : json) : bool :=
  match v with JStr _ => true | _ => false end.

(** The keys ["0"], ["1"], ... of an array or a string. *)
Fixpoint indexed {A : Type} (i : nat) (l : list A) : list (string * A) :=
  match l with
  | [] => []
  | x :: l' => (dec_of_Z (Z.of_nat i), x) :: indexed (S i) l'
  end.

Fixpoint units (s : string) : list json :=
  match s with
  | EmptyString => []
  | String c s' => JStr (String c "") :: units s'
  end.

(** [Object.entries(v)] *)
Definition Object_entries (v : json) : outcome (list (string * json)) :=
  match v with
  | JNull => Throw TypeError
  | JBool _ | JNum _ => Ok []
  | JStr s => Ok (indexed 0 (units s))
  | JArr l => Ok (indexed 0 l)
  | JObj m => Ok m
  end.

(** [v.trim()]: only a string has the method. *)
Definition trim_of (v : json) : outcome string :=
  match v with
  | JStr s => Ok (trim s)
  | _ => Throw TypeError
  end.

(** [String(v)] for the values that reach the leaf branch. *)
Definition String_of (v : json) : string :=
  match v with
  | JStr s => s
  | JNum x => JSNumber.toString x
  | JBool true => "true"
  | JBool false => "false"
  | JNull => "null"
  | JArr _ | JObj _ => ""
  end.

(** The elements the builder emits.  [marginLeft] is in pixels. *)
Record GeneNode : Type := mkGene {
  gene_margin : nat;
  gene_kNumber : string;
  gene_color : string;
  gene_description : string;
  gene_tooltip : option string
}.

#[local] Unset Elimination Schemes.
Inductive TreeNode : Type :=
| CategoryNode (marginLeft : nat) (label : string) (children : list TreeNode)
| PathwayNode (marginLeft : nat) (label : string)
              (buttons : option (string * list json))
              (genes : list GeneNode)
| LeafNode (marginLeft : nat) (label : string) (value : string).
#[local] Set Elimination Schemes.

(** [cleanedKey.match(/\[PATH:(ko\d+)\]/)]: the first capture group of the
    leftmost match. *)
Fixpoint take_digits (s : string) : string * string :=
  match s with
  | EmptyString => ("", "")
  | String c s' =>
      if is_digit c then let (d, r) := take_digits s' in (String c d, r)
      else ("", s)
  end.

Definition match_PATH_here (s : string) : option string :=
  if starts_with "[PATH:ko" s then
    let (d, r) := take_digits (drop 8 s) in
    if negb (is_empty d) && starts_with "]" r then Some ("ko" ++ d) else None
  else None.

Fixpoint match_PATH (s : string) : option string :=
  match match_PATH_here s with
  | Some c => Some c
  | None =>
      match s with
      | EmptyString => None
      | String _ s' => match_PATH s'
      end
  end.

Section Builder.

Variable abundanceData : index.

Definition createGeneNode (kNumber : string) (description : json)
           (level : nat) : outcome (option GeneNode) :=
  cleanedDesc <- trim_of description ;;
  if is_empty cleanedDesc then Ok None
  else
    let color :=
      if Abundance.truthy (get abundanceData kNumber)
      then getHeatmapColor abundanceData kNumber else "#FFFFFF" in
    tooltip <-
      match get abundanceData kNumber with
      | None => Ok None
      | Some (ANum x) => Ok (Some ("Gene Conservation: " ++ toFixed2 x))
      | Some _ => Throw TypeError
      end ;;
    Ok (Some (mkGene (level * 20) kNumber color cleanedDesc tooltip)).

(** The callback of [value.filter] in the array branch. *)
Definition pair_ok (kv : string * json) : outcome bool :=
  let (k, v) := kv in
  if JSString.truthy (trim k) then
    t <- trim_of v ;; Ok (JSString.truthy t)
  else Ok false.

Definition entry_ok (entry : json) : outcome bool :=
  entries <- Object_entries entry ;;
  if (0 <? List.length entries)%nat then someM pair_ok entries else Ok false.

(** The body of [filteredValue.forEach] in the array branch. *)
Definition gene_of_pair (level : nat) (kv : string * json)
  : outcome (list GeneNode) :=
  let (kNumber, description) := kv in
  t <- trim_of description ;;
  if is_empty t then Ok []
  else
    geneNode <- createGeneNode kNumber description (level + 1) ;;
    Ok (opt_list geneNode).

Definition genes_of_entry (level : nat) (entry : json)
  : outcome (list GeneNode) :=
  entries <- Object_entries entry ;;
  appendM (gene_of_pair level) entries.

Definition entry_kept (kv : string * json) : bool :=
  JSString.truthy (trim (fst kv)).

(** [createNode].  In the object branch the inner loop runs over the
    entries that pass [entry_kept], as [entries.forEach] does over the
    filtered array ([createNode_object] states it in that form). *)
Fixpoint createNode (key : string) (value : json) (level : nat)
         {struct value} : outcome (option TreeNode) :=
  let cleanedKey := trim key in
  if is_empty cleanedKey then Ok None
  else
    match value with
    | JNull => Throw TypeError
    | JObj m =>
        let entries := filter entry_kept m in
        if (List.length entries =? 0)%nat then Ok None
        else
          children <-
            (fix each (es : list (string * json))
               : outcome (list TreeNode) :=
               match es with
               | [] => Ok []
               | (k, v) :: es' =>
                   if entry_kept (k, v) then
                     childNode <- createNode k v (level + 1) ;;
                     r <- each es' ;;
                     Ok (opt_list childNode ++ r)%list
                   else each es'
               end) m ;;
          Ok (Some (CategoryNode (level * 20) cleanedKey children))
    | JArr l =>
        filteredValue <- filterM entry_ok l ;;
        if (List.length filteredValue =? 0)%nat then Ok None
        else
          let buttons :=
            match match_PATH cleanedKey with
            | Some ko =>
                Some ("map" ++ replace_first "ko" "" ko, filteredValue)
            | None => None
            end in
          genes <- appendM (genes_of_entry level) filteredValue ;;
          Ok (Some (PathwayNode (level * 20) cleanedKey buttons genes))
    | JBool _ | JNum _ | JStr _ =>
        let cleanedValue := trim (String_of value) in
        if is_empty cleanedValue then Ok None
        else Ok (Some (LeafNode (level * 20) cleanedKey cleanedValue))
    end.

(** The three sections that are never rendered. *)
Definition denylist : list string :=
  [ "09180 Brite Hierarchies";
    "09190 Not Included in Pathway or Brite";
    "09112 Not included in regular maps" ].

Definition includes (l : list string) (key : string) : bool :=
  existsb (String.eqb key) l.

Definition top_kept (kv : string * json) : bool :=
  negb (includes denylist (fst kv)) && JSString.truthy (trim (fst kv)).

Definition node_of_entry (level : nat) (kv : string * json)
  : outcome (list TreeNode) :=
  node <- createNode (fst kv) (snd kv) level ;;
  Ok (opt_list node).

(** [renderJSON]: the nodes appended to the container, in order. *)
Definition renderJSON (data : json) : outcome (list TreeNode) :=
  entries <- Object_entries data ;;
  appendM (node_of_entry 0) (filter top_kept entries).

End Builder.

End Tree.
Import Tree.

(* ================================================================== *)
(** ** Values read back from the DOM *)

Module DOM.

Definition quote : ascii := ascii_of_N 34.

(** The value of the attribute in the markup [value="${s}"], as the HTML
    parser reads it: the attribute ends at the first double quote.  What
    follows the quote is read as further attributes of the same input as
    long as it holds no [>], [=] or single quote.  A character reference
    (it starts at [&]) and the NUL character are outside the model. *)
Fixpoint attr_value (s : string) : string :=
  match s with
  | EmptyString => EmptyString
  | String c s' =>
      if Ascii.eqb c quote then EmptyString else String c (attr_value s')
  end.

Definition is_newline (c : ascii) : bool :=
  (code c =? 10) || (code c =? 13).

(** Value sanitisation of a text input: line breaks are stripped. *)
Fixpoint strip_newlines (s : string) : string :=
  match s with
  | EmptyString => EmptyString
  | String c s' =>
      if is_newline c then strip_newlines s' else String c (strip_newlines s')
  end.

(** [input.value] of [<input type="text" value="${s}">]. *)
Definition text_value (s : string) : string := strip_newlines (attr_value s).

Definition lower_char (c : ascii) : ascii :=
  let n := code c in
  if (65 <=? n) && (n <=? 90) then ascii_of_N (Z.to_N (n + 32)) else c.

Fixpoint toLowerCase (s : string) : string :=
  match s with
  | EmptyString => EmptyString
  | String c s' => String (lower_char c) (toLowerCase s')
  end.

Fixpoint all_hex (s : string) : bool :=
  match s with
  | EmptyString => true
  | String c s' =>
      match hex_value c with Some _ => all_hex s' | None => false end
  end.

(** A valid simple colour: [#] and six hexadecimal digits. *)
Definition simple_color (s : string) : bool :=
  match s with
  | String "#" w => (String.length w =? 6)%nat && all_hex w
  | _ => false
  end.

(** Value sanitisation of a colour input: a valid simple colour in
    lowercase, and [#000000] for anything else. *)
Definition sanitize_color (v : string) : string :=
  if simple_color v then toLowerCase v else "#000000".

(** [input.value] of [<input type="color" value="${s}">]. *)
Definition color_value (s : string) : string := sanitize_color (attr_value s).



End DOM.
Import DOM.

(* ================================================================== *)
(** ** The customisation panel: selection and URL *)

Module Panel.

(** One [.ec-color-option] element: the values of its three inputs. *)
Record ec_option : Type := mkOption {
  ec_number : string;
  bgcolor : string;
  fgcolor : string
}.

Inductive msg_type : Type := error | success | warning.

(** The part of the page the script reads and writes. *)
Record page : Type := mkPage {
  pathwayInput : string;
  colorSelection : list ec_option;
  keggUrlInput : string;
  keggLink_href : string;
  keggLink_text : string;
  keggLink_hidden : bool;
  panel_visible : bool;
  messages : list (string * msg_type)
}.

(** The page as the markup declares it. *)
Definition initial : page :=
  mkPage "" [] "" "" "Open in KEGG" true false [].

Definition displayMessage (text : string) (type : msg_type) (p : page)
  : page :=
  mkPage (pathwayInput p) (colorSelection p) (keggUrlInput p)
         (keggLink_href p) (keggLink_text p) (keggLink_hidden p)
         (panel_visible p) (messages p ++ [(text, type)])%list.

Definition set_pathwayInput (v : string) (p : page) : page :=
  mkPage v (colorSelection p) (keggUrlInput p)
         (keggLink_href p) (keggLink_text p) (keggLink_hidden p)
         (panel_visible p) (messages p).

Definition set_colorSelection (l : list ec_option) (p : page) : page :=
  mkPage (pathwayInput p) l (keggUrlInput p)
         (keggLink_href p) (keggLink_text p) (keggLink_hidden p)
         (panel_visible p) (messages p).

Definition set_url (url href text : string) (hidden : bool) (p : page)
  : page :=
  mkPage (pathwayInput p) (colorSelection p) url href text hidden
         (panel_visible p) (messages p).

Definition toggleCustomPanel (p : page) : page :=
  mkPage (pathwayInput p) (colorSelection p) (keggUrlInput p)
         (keggLink_href p) (keggLink_text p) (keggLink_hidden p)
         (negb (panel_visible p)) (messages p).

(** [/^map\d{n,5}$/.test(s)] for [n = 5] (line 326) and [n = 0]
    (line 478): the prefix, then between [lo] and five digits, then the
    end of the string. *)
Fixpoint all_digits (s : string) : bool :=
  match s with
  | EmptyString => true
  | String c s' => is_digit c && all_digits s'
  end.

Definition test_map (lo : nat) (s : string) : bool :=
  starts_with "map" s
  && all_digits (drop 3 s)
  && (lo <=? String.length (drop 3 s))%nat
  && (String.length (drop 3 s) <=? 5)%nat.

Definition base_url : string := "https://www.kegg.jp/kegg-bin/show_pathway?".

(** The callback of [ecOptions.map] in [updateKEGGUrl]. *)
Definition queryPart (option : ec_option) : string :=
  let ecNumber := trim (ec_number option) in
  let bg := replace_first "#" "%23" (bgcolor option) in
  let fg := replace_first "#" "%23" (fgcolor option) in
  encodeURIComponent ecNumber ++ "%09" ++ bg ++ "," ++ fg.

Definition updateKEGGUrl (p : page) : page :=
  let mapId := trim (pathwayInput p) in
  if negb (test_map 5 mapId) then
    let p := if JSString.truthy mapId
             then displayMessage
                    "Invalid pathway ID. Must be in format map00000" error p
             else p in
    set_url "" "#" "" true p
  else
    let ecOptions := colorSelection p in
    if (List.length ecOptions =? 0)%nat then
      displayMessage "Please add at least one K number" error p
    else
      let queryParts := map queryPart ecOptions in
      let defaultColor := "%23FFFFFF" in
      let keggUrl := base_url ++ mapId ++ "/" ++ join "/" queryParts
                     ++ "/default%3d" ++ defaultColor in
      set_url keggUrl keggUrl "Open KEGG Map" false p.

Definition default_bgColor : string := "#FF0000".
Definition default_fgColor : string := "#FFFFFF".

(** [addECToCustomURL]: the new option is written as markup, so its three
    inputs hold what the parser reads from it. *)
Definition addECToCustomURL (kNumber bgColor fgColor : string) (p : page)
  : page :=
  if existsb (fun input => String.eqb (ec_number input) kNumber)
             (colorSelection p)
  then p
  else
    let ecOption :=
      mkOption (text_value kNumber) (color_value bgColor)
               (color_value fgColor) in
    updateKEGGUrl
      (set_colorSelection (colorSelection p ++ [ecOption])%list p).

(** The click handler of a gene node: both colours take their default. *)
Definition geneClick (kNumber : string) : page -> page :=
  addECToCustomURL kNumber default_bgColor default_fgColor.

Fixpoint remove_nth {A : Type} (n : nat) (l : list A) : list A :=
  match n, l with
  | _, [] => []
  | O, _ :: l' => l'
  | S n', x :: l' => x :: remove_nth n' l'
  end.

(** [removeECEntry(button)], the button being the one of the [n]-th
    option. *)
Definition removeECEntry (n : nat) (p : page) : page :=
  let p := set_colorSelection (remove_nth n (colorSelection p)) p in
  updateKEGGUrl (displayMessage "K number removed" success p).

Definition generateHeatmapKEGGUrl (abundanceData : index) (mapId : string)
           (kNumbers : list string) : string :=
  let dataset :=
    join "/" (map (fun k =>
                     k ++ "%09"
                       ++ encodeURIComponent (getHeatmapColor abundanceData k))
                  kNumbers) in
  base_url ++ mapId ++ "/" ++ dataset ++ "/default%3d%23FFFFFF".

(** [values.flatMap(entry => Object.keys(entry))] *)
Definition all_keys (values : list json) : outcome (list string) :=
  appendM (fun entry => es <- Object_entries entry ;; Ok (map fst es)) values.

(** [handleHeatmapClick]: the URL handed to [window.open], if any. *)
Definition handleHeatmapClick (abundanceData : index) (mapId : string)
           (values : list json) (p : page) : outcome (option string * page) :=
  ks <- all_keys values ;;
  let validKNumbers :=
    filter (fun k => Abundance.truthy (get abundanceData k)) ks in
  if (List.length validKNumbers =? 0)%nat then
    Ok (None,
        displayMessage "No valid K numbers found in abundance data" warning p)
  else Ok (Some (generateHeatmapKEGGUrl abundanceData mapId validKNumbers), p).

(** [handleCustomization]; [overwrite] is the answer to [confirm]. *)
Definition handleCustomization (mapId : string) (overwrite : bool) (p : page)
  : page :=
  if (0 <? List.length (colorSelection p))%nat && negb overwrite then p
  else toggleCustomPanel (set_pathwayInput mapId (set_colorSelection [] p)).


(** The [input] listener of the pathway field, after the user has made
    its text [v]. *)
Definition pathwayInput_input (v : string) (p : page) : page :=
  let p := set_pathwayInput v p in
  let p :=
    if negb (test_map 0 v) then
      displayMessage "Only numbers allowed after 'map' prefix" error
                     (set_pathwayInput (slice_init v) p)
    else p in
  updateKEGGUrl p.

(** The [input] listener of the selection, after the user has picked new
    colours for the [n]-th option; a colour input holds sanitised values
    only. *)
Fixpoint recolor (n : nat) (bg fg : string) (l : list ec_option)
  : list ec_option :=
  match n, l with
  | _, [] => []
  | O, o :: l' =>
      mkOption (ec_number o) (sanitize_color bg) (sanitize_color fg) :: l'
  | S n', o :: l' => o :: recolor n' bg fg l'
  end.

Definition colorSelection_input (n : nat) (bg fg : string) (p : page)
  : page :=
  updateKEGGUrl (set_colorSelection (recolor n bg fg (colorSelection p)) p).

(** The events of the panel, and the pages reachable through them. *)
Inductive event : Type :=
| EGeneClick (kNumber : string)
| ERemove (n : nat)
| ECustomize (mapId : string) (overwrite : bool)
| EToggle
| ETypePathway (v : string)
| EPickColor (n : nat) (bg fg : string).

Definition handle (e : event) (p : page) : page :=
  match e with
  | EGeneClick k => geneClick k p
  | ERemove n => removeECEntry n p
  | ECustomize mapId overwrite => handleCustomization mapId overwrite p
  | EToggle => toggleCustomPanel p
  | ETypePathway v => pathwayInput_input v p
  | EPickColor n bg fg => colorSelection_input n bg fg p
  end.

Definition run (es : list event) (p : page) : page :=
  fold_left (fun p e => handle e p) es p.


End Panel.
Import Panel.

(* ================================================================== *)
(** ** The grammar of the specification, in its own words *)

Module Grammar.

Fixpoint forall_units (f : ascii -> bool) (s : string) : bool :=
  match s with
  | EmptyString => true
  | String c s' => f c && forall_units f s'
  end.

(** A pathway id: [map] followed by exactly five ASCII digits. *)
Definition map_id (s : string) : Prop :=
  exists d1 d2 d3 d4 d5 : ascii,
    forallb is_digit [d1; d2; d3; d4; d5] = true /\
    s = "map" ++ String d1 (String d2 (String d3 (String d4 (String d5 "")))).

(** A colour in its six-hex-digit form [#RRGGBB]. *)
Definition is_hex_digit (c : ascii) : bool :=
  match hex_value c with Some _ => true | None => false end.

Definition hex6 (c : string) : bool :=
  match c with
  | String "#" w => (String.length w =? 6)%nat && forall_units is_hex_digit w
  | _ => false
  end.

(** A selection segment: percent-encoded identifier, tab marker,
    percent-encoded background, comma, percent-encoded foreground. *)
Definition pair_segment (e : string * string * string) : string :=
  let '(id, bg, fg) := e in
  encodeURIComponent id ++ "%09" ++ encodeURIComponent bg ++ ","
                     ++ encodeURIComponent fg.

(** A heatmap segment: percent-encoded identifier, tab marker and one
    percent-encoded colour. *)
Definition single_segment (e : string * string) : string :=
  let '(id, color) := e in
  encodeURIComponent id ++ "%09" ++ encodeURIComponent color.

(** Base endpoint, pathway id, the segments joined by [/], and the fixed
    default-colour suffix. *)
Definition url (mapId : string) (segments : list string) : string :=
  "https://www.kegg.jp/kegg-bin/show_pathway?" ++ mapId ++ "/"
    ++ join "/" segments ++ "/default%3d%23FFFFFF".

End Grammar.

(* ================================================================== *)
(** ** Predicates on documents and trees used in the statements *)

Module TreeSpec.

(** A displayed field: non-empty, and already in trimmed form. *)
Definition shown (s : string) : bool :=
  negb (is_empty s) && String.eqb (trim s) s.

(** Every node of the tree has a shown label; a gene node a shown
    description, a leaf a shown value, and a pathway node at least one
    gene node. *)
Fixpoint displayable (n : TreeNode) : bool :=
  match n with
  | CategoryNode _ label children =>
      shown label && forallb displayable children
  | PathwayNode _ label _ genes =>
      shown label
      && negb (List.length genes =? 0)%nat
      && forallb (fun g => shown (gene_description g)) genes
  | LeafNode _ label value => shown label && shown value
  end.

(** The pairs of a gene-entry mapping, by key and value:
    - [good_pair]: trimmed key and trimmed string value both non-empty;
    - [bad_pair]: non-empty trimmed key, value that is not a string. *)
Definition not_string (kv : string * json) : bool :=
  negb (is_string (snd kv)).

Definition good_pair (kv : string * json) : bool :=
  JSString.truthy (trim (fst kv))
  && match snd kv with
     | JStr s => JSString.truthy (trim s)
     | _ => false
     end.

Definition bad_pair (kv : string * json) : bool :=
  JSString.truthy (trim (fst kv)) && not_string kv.

(** The entries of an array node on which the builder stops: [null], an
    entry with a bad pair, and an entry that has a good pair together with
    some value that is not a string. *)
Definition entry_throws (entry : json) : bool :=
  match Object_entries entry with
  | Throw _ => true
  | Ok es =>
      existsb bad_pair es || (existsb good_pair es && existsb not_string es)
  end.

(** The values on which [createNode] stops, for a key that is kept. *)
Fixpoint node_throws (value : json) : bool :=
  match value with
  | JNull => true
  | JObj m =>
      (fix any (es : list (string * json)) : bool :=
         match es with
         | [] => false
         | (k, v) :: es' =>
             (JSString.truthy (trim k) && node_throws v) || any es'
         end) m
  | JArr l => existsb entry_throws l
  | JBool _ | JNum _ | JStr _ => false
  end.

(** The documents on which [renderJSON] stops. *)
Definition doc_throws (data : json) : bool :=
  match Object_entries data with
  | Throw _ => true
  | Ok es => existsb (fun kv => top_kept kv && node_throws (snd kv)) es
  end.

(** The identifiers whose tooltip can be printed: the abundance object
    holds nothing under them, own or inherited, or holds a number. *)
Definition scored (a : index) (k : string) : bool :=
  match get a k with
  | None | Some (ANum _) => true
  | Some _ => false
  end.

(** The keys of a gene-entry mapping, and of all the gene-entry mappings
    below a node or in a document. *)
Definition entry_keys (entry : json) : list string :=
  match Object_entries entry with
  | Ok es => map fst es
  | Throw _ => []
  end.

Fixpoint gene_keys (value : json) : list string :=
  match value with
  | JObj m =>
      (fix below (es : list (string * json)) : list string :=
         match es with
         | [] => []
         | (_, v) :: es' => (gene_keys v ++ below es')%list
         end) m
  | JArr l => List.concat (map entry_keys l)
  | JNull | JBool _ | JNum _ | JStr _ => []
  end.

Definition doc_gene_keys (data : json) : list string :=
  match Object_entries data with
  | Ok es => List.concat (map (fun kv => gene_keys (snd kv)) es)
  | Throw _ => []
  end.

End TreeSpec.
Import TreeSpec.

(* ================================================================== *)
(** ** The toggle of a tree node *)

Module Toggle.

(** The text of the toggle button: a triangle pointing right or down. *)
Inductive arrow : Type := ArrowRight | ArrowDown.

(** The [.children] container carries the class [collapsed] or not, and
    the button shows one of the two triangles. *)
Record toggle : Type := mkToggle {
  collapsed : bool;
  button_text : arrow
}.

(** A category node is created with [class="children"] and the right
    triangle (lines 179 and 185), a pathway node with
    [class="children collapsed"] and the right triangle (lines 210 and
    215). *)
Definition category_toggle : toggle := mkToggle false ArrowRight.
Definition pathway_toggle : toggle := mkToggle true ArrowRight.

(** The click listener of lines 193-197 and 259-263. *)
Definition toggle_click (t : toggle) : toggle :=
  let c := negb (collapsed t) in
  mkToggle c (if c then ArrowRight else ArrowDown).

Fixpoint clicks (n : nat) (t : toggle) : toggle :=
  match n with
  | O => t
  | S n' => clicks n' (toggle_click t)
  end.

End Toggle.
Import Toggle.

(* ================================================================== *)
(** ** The shape of the tree, stated without the builder *)

Module Shape.

(** A pair of a gene entry that gets a gene node: its value is a string
    that does not trim to empty. *)
Definition described (kv : string * json) : bool :=
  match snd kv with
  | JStr s => JSString.truthy (trim s)
  | _ => false
  end.

(** The score stored under an identifier, if it is a number. *)
Definition score (a : index) (k : string) : option num :=
  match get a k with
  | Some (ANum x) => Some x
  | _ => None
  end.

(** The gene node of a described pair whose key the abundance object
    holds a number or nothing under. *)
Definition gene_of (a : index) (level : nat) (kv : string * json) : GeneNode :=
  mkGene (level * 20) (fst kv) (getHeatmapColor a (fst kv))
         (trim (String_of (snd kv)))
         (option_map (fun x => "Gene Conservation: " ++ toFixed2 x)
                     (score a (fst kv))).

(** The label of a node. *)
Definition label_of (n : TreeNode) : string :=
  match n with
  | CategoryNode _ label _ | PathwayNode _ label _ _ | LeafNode _ label _ =>
      label
  end.

(** Indentation follows depth: a node at depth [d] is indented by [20 d]
    pixels, the gene nodes of a pathway by one level more. *)
Fixpoint indented (d : nat) (n : TreeNode) : bool :=
  match n with
  | CategoryNode m _ children =>
      (m =? d * 20)%nat && forallb (indented (S d)) children
  | PathwayNode m _ _ genes =>
      (m =? d * 20)%nat
      && forallb (fun g => (gene_margin g =? S d * 20)%nat) genes
  | LeafNode m _ _ => (m =? d * 20)%nat
  end.

(** Whether [createNode] returns a node. *)
Definition emits (r : outcome (option TreeNode)) : bool :=
  match r with
  | Ok (Some _) => true
  | _ => false
  end.


(** The page shows a link exactly when the URL field holds a URL, and then
    both agree. *)
Definition link_consistent (p : page) : Prop :=
  (keggUrlInput p = "" /\ keggLink_hidden p = true) \/
  (keggLink_hidden p = false /\ keggLink_href p = keggUrlInput p /\
   starts_with base_url (keggUrlInput p) = true).

End Shape.
Import Shape.

(* ================================================================== *)
(** * Properties *)

(** ** The embedded built-ins on small inputs *)

Example trim_examples :
  trim "  a b  " = "a b" /\ trim "   " = "" /\
  trim (String (ascii_of_N 9) (String (ascii_of_N 160) "K1")) = "K1".
Proof. repeat split. Qed.

Example toString16_examples :
  toString16 (RInt 255) = "ff" /\ toString16 (RInt 128) = "80" /\
  padStart0 2 (toString16 (RInt 5)) = "05" /\
  toString16 (RInt (-5)) = "-5" /\ toString16 RNaN = "NaN".
Proof. vm_compute. repeat split. Qed.

Example Math_round_examples :
  Math_round (Fin (255 # 2)) = RInt 128 /\
  Math_round (Fin (-(5 # 2))) = RInt (-2) /\
  Math_round (Fin (12 # 5)) = RInt 2.
Proof. vm_compute. repeat split. Qed.

Example round64_examples :
  round64 (1 # 3) = Fin (6004799503160661 # 18014398509481984) /\
  round64 (2 ^ 53 + 1) = Fin (2 ^ 53) /\
  round64 (2 ^ 1024) = PInf /\ round64 (- 2 ^ 1024) = NInf /\
  round64 (1 # 2 ^ 1076) = Fin 0 /\
  sub (literal (10 ^ 308)) (literal (- 10 ^ 308)) = PInf.
Proof. vm_compute. repeat split. Qed.

Example toFixed2_examples :
  toFixed2 (Fin (5 # 4)) = "1.25" /\ toFixed2 (Fin 0) = "0.00" /\
  toFixed2 (literal (1005 # 1000)) = "1.00" /\
  toFixed2 (Fin (12 # 1)) = "12.00" /\
  toFixed2 (Fin (-(3 # 2))) = "-1.50" /\
  toFixed2 (literal (-(1 # 1000))) = "-0.00" /\
  toFixed2 (Fin (10 ^ 21)) = "1e+21".
Proof. vm_compute. repeat split. Qed.

Example toString_examples :
  JSNumber.toString (Fin (5 # 2)) = "2.5" /\
  JSNumber.toString (Fin (-(3 # 1))) = "-3" /\
  JSNumber.toString (literal (1 # 10)) = "0.1" /\
  JSNumber.toString (literal (1 # 3)) = "0.3333333333333333" /\
  JSNumber.toString (literal (1 # 10 ^ 7)) = "1e-7" /\
  JSNumber.toString (literal (1 # 10 ^ 6)) = "0.000001" /\
  JSNumber.toString (Fin (10 ^ 21)) = "1e+21" /\
  JSNumber.toString (Fin (10 ^ 20)) = "100000000000000000000" /\
  JSNumber.toString (literal (123456789012345678901234567890 # 1))
  = "1.2345678901234568e+29".
Proof. vm_compute. repeat split. Qed.

Example read_back_examples :
  text_value " K00001" = " K00001" /\
  text_value (String "K" (String quote "1")) = "K" /\
  color_value "#FF0000" = "#ff0000" /\
  color_value "#NAN00NAN" = "#000000" /\
  color_value "#FFF" = "#000000".
Proof. vm_compute. repeat split. Qed.

Example encodeURIComponent_examples :
  encodeURIComponent "#FF0000" = "%23FF0000" /\
  encodeURIComponent "K 1/a:b" = "K%201%2Fa%3Ab" /\
  encodeURIComponent (String (ascii_of_N 233) "") = "%C3%A9" /\
  encodeURIComponent "a-b_c.d!e~f*g'h(i)j" = "a-b_c.d!e~f*g'h(i)j".
Proof. vm_compute. repeat split. Qed.

Example match_PATH_examples :
  match_PATH "Glycolysis [PATH:ko00010]" = Some "ko00010" /\
  match_PATH "[PATH:ko] [PATH:ko12x] [PATH:ko7]" = Some "ko7" /\
  match_PATH "Glycolysis" = None.
Proof. vm_compute. repeat split. Qed.

Example test_map_examples :
  test_map 5 "map00010" = true /\ test_map 5 "map123" = false /\
  test_map 5 "map000100" = false /\ test_map 5 "map0001a" = false /\
  test_map 0 "map" = true /\ test_map 0 "map12" = true /\
  test_map 0 "ma" = false.
Proof. vm_compute. repeat split. Qed.

(** A pathway list labelled [Glycolysis [PATH:ko00010]] with one valid gene
    entry becomes a pathway node with the controls of [map00010]. *)
Example pathway_node_example :
  createNode (loadJSON [("K00844", ANum (Fin (3 # 4))); ("K00845", ANum (Fin (1 # 4)))])
             "Glycolysis [PATH:ko00010]"
             (JArr [JObj [("K00844", JStr " hexokinase ")]]) 1
  = Ok (Some (PathwayNode 20 "Glycolysis [PATH:ko00010]"
                (Some ("map00010", [JObj [("K00844", JStr " hexokinase ")]]))
                [mkGene 40 "K00844" "#FF0000" "hexokinase"
                        (Some "Gene Conservation: 0.75")])).
Proof. vm_compute. reflexivity. Qed.

(** ** Strings *)

Lemma is_empty_true (s : string) : is_empty s = true <-> s = "".
Proof. destruct s; simpl; split; congruence. Qed.

Lemma is_empty_false (s : string) : is_empty s = false <-> s <> "".
Proof. destruct s; simpl; split; congruence. Qed.

Lemma trimStart_fixed (s : string) :
  match s with String c _ => is_ws c = false | EmptyString => True end ->
  trimStart s = s.
Proof. destruct s as [|c s]; simpl; [reflexivity|]. now intros ->. Qed.

Lemma trimEnd_idempotent (s : string) : trimEnd (trimEnd s) = trimEnd s.
Proof.
  induction s as [|c s IH]; simpl; [reflexivity|].
  destruct (is_ws c && is_empty (trimEnd s)) eqn:E; simpl; [reflexivity|].
  now rewrite IH, E.
Qed.

Lemma trimStart_head (s : string) :
  match trimStart s with String c _ => is_ws c = false | EmptyString => True end.
Proof.
  induction s as [|c s IH]; simpl; [exact I|].
  destruct (is_ws c) eqn:E; [exact IH | exact E].
Qed.

(** [trim] returns a string that [trim] leaves alone. *)
Lemma trim_idempotent (s : string) : trim (trim s) = trim s.
Proof.
  unfold trim.
  assert (H := trimStart_head s).
  destruct (trimStart s) as [|c t]; [reflexivity|].
  assert (E : trimEnd (String c t) = String c (trimEnd t)) by (simpl; now rewrite H).
  rewrite E, trimStart_fixed by exact H.
  rewrite <- E. apply trimEnd_idempotent.
Qed.

(** ** Rounding to binary64 *)

Section Rounding.

Local Open Scope Q_scope.

Lemma pow2_pos (e : Z) : 0 < pow2 e.
Proof. apply Qpower_0_lt. reflexivity. Qed.

Lemma pow2_plus (x y : Z) : pow2 (x + y) == pow2 x * pow2 y.
Proof. apply Qpower_plus. discriminate. Qed.

Lemma pow2_le (x y : Z) : (x <= y)%Z -> pow2 x <= pow2 y.
Proof. intros H. apply Qpower_le_compat_l; [exact H | discriminate]. Qed.

Lemma pow2_lt_inv (x y : Z) : pow2 x < pow2 y -> (x < y)%Z.
Proof. intros H. apply (Qpower_lt_compat_l_inv 2); [exact H | reflexivity]. Qed.

Lemma pow2_Z (n : Z) : (0 <= n)%Z -> pow2 n == inject_Z (2 ^ n).
Proof. intros H. symmetry. exact (Zpower_Qpower 2 n H). Qed.

Lemma Qdiv_lt_cross (n d A B : Z) :
  (0 < d)%Z -> (0 < B)%Z -> (n * B < A * d)%Z ->
  inject_Z n / inject_Z d < inject_Z A / inject_Z B.
Proof.
  intros Hd HB H.
  assert (Qd : 0 < inject_Z d) by (rewrite (Zlt_Qlt 0 d) in Hd; exact Hd).
  assert (QB : 0 < inject_Z B) by (rewrite (Zlt_Qlt 0 B) in HB; exact HB).
  apply Qlt_shift_div_l; [exact QB|].
  setoid_replace (inject_Z n / inject_Z d * inject_Z B)
    with (inject_Z n * inject_Z B / inject_Z d)
    by (field; intros E; rewrite E in Qd; discriminate Qd).
  apply Qlt_shift_div_r; [exact Qd|].
  rewrite <- !inject_Z_mult. rewrite <- Zlt_Qlt. exact H.
Qed.

Lemma Qdiv_le_cross (n d A B : Z) :
  (0 < d)%Z -> (0 < B)%Z -> (A * d <= n * B)%Z ->
  inject_Z A / inject_Z B <= inject_Z n / inject_Z d.
Proof.
  intros Hd HB H.
  assert (Qd : 0 < inject_Z d) by (rewrite (Zlt_Qlt 0 d) in Hd; exact Hd).
  assert (QB : 0 < inject_Z B) by (rewrite (Zlt_Qlt 0 B) in HB; exact HB).
  apply Qle_shift_div_r; [exact QB|].
  setoid_replace (inject_Z n / inject_Z d * inject_Z B)
    with (inject_Z n * inject_Z B / inject_Z d)
    by (field; intros E; rewrite E in Qd; discriminate Qd).
  apply Qle_shift_div_l; [exact Qd|].
  rewrite <- !inject_Z_mult. rewrite <- Zle_Qle. exact H.
Qed.

(** [ilog2] is the binary exponent. *)
Lemma ilog2_spec (a : Q) :
  0 < a -> pow2 (ilog2 a) <= a /\ a < pow2 (ilog2 a + 1).
Proof.
  intros Pa. destruct a as [n d].
  assert (Pn : (0 < n)%Z).
  { unfold Qlt in Pa. simpl in Pa. lia. }
  unfold ilog2. cbn [Qnum Qden].
  set (ln := Z.log2 n). set (ld := Z.log2 (Z.pos d)).
  assert (Ln : (0 <= ln)%Z) by apply Z.log2_nonneg.
  assert (Ld : (0 <= ld)%Z) by apply Z.log2_nonneg.
  destruct (Z.log2_spec n Pn) as [N1 N2]. fold ln in N1, N2.
  destruct (Z.log2_spec (Z.pos d) eq_refl) as [D1 D2]. fold ld in D1, D2.
  assert (P1 : (0 < 2 ^ ld)%Z) by (apply Z.pow_pos_nonneg; lia).
  assert (P2 : (0 < 2 ^ Z.succ ld)%Z) by (apply Z.pow_pos_nonneg; lia).
  assert (Up : n # d < pow2 (ln - ld + 1)).
  { replace (ln - ld + 1)%Z with (Z.succ ln - ld)%Z by lia.
    unfold pow2. rewrite Qpower_minus by discriminate.
    fold (pow2 (Z.succ ln)). fold (pow2 ld).
    rewrite !pow2_Z by lia. rewrite (Qmake_Qdiv n d).
    apply Qdiv_lt_cross; [reflexivity | exact P1 | nia]. }
  assert (Lo : pow2 (ln - ld - 1) <= n # d).
  { replace (ln - ld - 1)%Z with (ln - Z.succ ld)%Z by lia.
    unfold pow2. rewrite Qpower_minus by discriminate.
    fold (pow2 ln). fold (pow2 (Z.succ ld)).
    rewrite !pow2_Z by lia. rewrite (Qmake_Qdiv n d).
    apply Qdiv_le_cross; [reflexivity | exact P2 | nia]. }
  destruct (Qle_bool (pow2 (ln - ld)) (n # d)) eqn:T.
  - apply Qle_bool_iff in T. split; [exact T | exact Up].
  - split; [exact Lo|].
    replace (ln - ld - 1 + 1)%Z with (ln - ld)%Z by lia.
    apply Qnot_le_lt. intros C. apply Qle_bool_iff in C. congruence.
Qed.

Lemma ilog2_unique (a : Q) (e : Z) :
  0 < a -> pow2 e <= a -> a < pow2 (e + 1) -> ilog2 a = e.
Proof.
  intros Pa L U. destruct (ilog2_spec a Pa) as [L' U'].
  assert (H1 : (ilog2 a < e + 1)%Z).
  { apply pow2_lt_inv. now apply Qle_lt_trans with a. }
  assert (H2 : (e < ilog2 a + 1)%Z).
  { apply pow2_lt_inv. now apply Qle_lt_trans with a. }
  lia.
Qed.

Lemma ilog2_comp (a b : Q) : a == b -> 0 < a -> ilog2 a = ilog2 b.
Proof.
  intros E Pa. symmetry.
  assert (Pb : 0 < b) by (rewrite <- E; exact Pa).
  destruct (ilog2_spec a Pa) as [L U].
  apply ilog2_unique; [exact Pb | now rewrite <- E | now rewrite <- E].
Qed.

Lemma ilog2_mono (a b : Q) : 0 < a -> a <= b -> (ilog2 a <= ilog2 b)%Z.
Proof.
  intros Pa L.
  assert (Pb : 0 < b) by (now apply Qlt_le_trans with a).
  destruct (ilog2_spec a Pa) as [La _]. destruct (ilog2_spec b Pb) as [_ Ub].
  assert (H : (ilog2 a < ilog2 b + 1)%Z).
  { apply pow2_lt_inv. apply Qle_lt_trans with a; [exact La|].
    now apply Qle_lt_trans with b. }
  lia.
Qed.

Lemma rne_comp (x y : Q) : x == y -> rne x = rne y.
Proof.
  intros E. unfold rne. rewrite (Qfloor_comp x y E).
  assert (D : x - inject_Z (Qfloor y) == y - inject_Z (Qfloor y))
    by (rewrite E; reflexivity).
  now rewrite (Qcompare_comp _ _ D _ _ (Qeq_refl (1 # 2))).
Qed.

Lemma rne_bounds (x : Q) : (Qfloor x <= rne x <= Qfloor x + 1)%Z.
Proof.
  unfold rne. destruct (x - inject_Z (Qfloor x) ?= 1 # 2); [|lia|lia].
  destruct (Z.even (Qfloor x)); lia.
Qed.

Lemma rne_mono (x y : Q) : x <= y -> (rne x <= rne y)%Z.
Proof.
  intros L. assert (F := Qfloor_resp_le x y L).
  assert (Bx := rne_bounds x). assert (By := rne_bounds y).
  destruct (Z.eq_dec (Qfloor x) (Qfloor y)) as [E|N]; [|lia].
  unfold rne in *. rewrite <- E in *.
  destruct (Qcompare_spec (x - inject_Z (Qfloor x)) (1 # 2)) as [Cx|Cx|Cx];
    destruct (Qcompare_spec (y - inject_Z (Qfloor x)) (1 # 2)) as [Cy|Cy|Cy];
    try lia; try (destruct (Z.even (Qfloor x)); lia); exfalso; lra.
Qed.

Lemma rne_Z (z : Z) : rne (inject_Z z) = z.
Proof.
  unfold rne. rewrite Qfloor_Z.
  assert (E : (inject_Z z - inject_Z z ?= 1 # 2) = Lt).
  { apply Qlt_alt. setoid_replace (inject_Z z - inject_Z z) with 0 by ring.
    reflexivity. }
  now rewrite E.
Qed.

Lemma ulp_pos (a : Q) : 0 < ulp a.
Proof. apply pow2_pos. Qed.

Lemma round_pos_comp (a b : Q) :
  a == b -> 0 < a -> round_pos a = round_pos b.
Proof.
  intros E Pa. unfold round_pos, ulp.
  rewrite (ilog2_comp a b E Pa).
  f_equal. f_equal. apply rne_comp. now rewrite E.
Qed.

Lemma round_pos_nonneg (a : Q) : 0 < a -> 0 <= round_pos a.
Proof.
  intros Pa. unfold round_pos.
  apply Qmult_le_0_compat; [|apply Qlt_le_weak, ulp_pos].
  assert (H : (0 <= rne (a / ulp a))%Z).
  { rewrite <- (rne_Z 0) at 1. apply rne_mono.
    apply Qle_shift_div_l; [apply ulp_pos|]. change (inject_Z 0) with 0. lra. }
  rewrite Zle_Qle in H. exact H.
Qed.

(** Rounding never moves a number across a power of two of its binade. *)
Lemma round_pos_binade (a : Q) :
  0 < a ->
  let e := Z.max (ilog2 a) (-1022) in
  round_pos a <= pow2 (e + 1) /\
  (pow2 e <= a -> pow2 e <= round_pos a).
Proof.
  intros Pa e. destruct (ilog2_spec a Pa) as [L U].
  assert (Pu := ulp_pos a). unfold round_pos. unfold ulp in *. fold e in Pu |- *.
  set (u := pow2 (e - 52)) in *.
  assert (E1 : pow2 (e + 1) == inject_Z (2 ^ 53) * u).
  { unfold u. rewrite <- (pow2_Z 53) by lia. rewrite <- pow2_plus.
    replace (53 + (e - 52))%Z with (e + 1)%Z by lia. reflexivity. }
  assert (E0 : pow2 e == inject_Z (2 ^ 52) * u).
  { unfold u. rewrite <- (pow2_Z 52) by lia. rewrite <- pow2_plus.
    replace (52 + (e - 52))%Z with e by lia. reflexivity. }
  split.
  - rewrite E1. apply Qmult_le_compat_r; [|lra].
    rewrite <- Zle_Qle. rewrite <- (rne_Z (2 ^ 53)). apply rne_mono.
    apply Qle_shift_div_r; [exact Pu|]. rewrite <- E1.
    apply Qlt_le_weak, Qlt_le_trans with (pow2 (ilog2 a + 1)); [exact U|].
    apply pow2_le. lia.
  - intros Le. rewrite E0. apply Qmult_le_compat_r; [|lra].
    rewrite <- Zle_Qle. rewrite <- (rne_Z (2 ^ 52)). apply rne_mono.
    apply Qle_shift_div_l; [exact Pu|]. rewrite <- E0. exact Le.
Qed.

Lemma round_pos_mono (a b : Q) :
  0 < a -> a <= b -> round_pos a <= round_pos b.
Proof.
  intros Pa L.
  assert (Pb : 0 < b) by (now apply Qlt_le_trans with a).
  assert (M := ilog2_mono a b Pa L).
  destruct (Z.eq_dec (Z.max (ilog2 a) (-1022)) (Z.max (ilog2 b) (-1022)))
    as [E|N].
  - unfold round_pos, ulp. rewrite E.
    apply Qmult_le_compat_r; [|apply Qlt_le_weak, pow2_pos].
    rewrite <- Zle_Qle. apply rne_mono.
    unfold Qdiv. apply Qmult_le_compat_r; [exact L|].
    apply Qinv_le_0_compat, Qlt_le_weak, pow2_pos.
  - destruct (round_pos_binade a Pa) as [Ua _].
    destruct (round_pos_binade b Pb) as [_ Lb].
    cbv zeta in Ua, Lb.
    assert (Eb : Z.max (ilog2 b) (-1022) = ilog2 b) by lia.
    rewrite Eb in Lb.
    apply Qle_trans with (pow2 (ilog2 b)).
    + apply Qle_trans with (pow2 (Z.max (ilog2 a) (-1022) + 1));
        [exact Ua | apply pow2_le; lia].
    + apply Lb. apply (ilog2_spec b Pb).
Qed.

(** [round64] respects the equality of rationals. *)
Lemma round64_comp (x y : Q) : x == y -> round64 x = round64 y.
Proof.
  intros E. unfold round64.
  rewrite (Qcompare_comp _ _ E _ _ (Qeq_refl 0)).
  destruct (Qcompare_spec y 0) as [C|C|C]; [reflexivity| |].
  - rewrite (round_pos_comp (- x) (- y)); [reflexivity | now rewrite E | lra].
  - rewrite (round_pos_comp x y); [reflexivity | exact E | lra].
Qed.

Lemma round64_nonneg (x r : Q) : 0 <= x -> round64 x = Fin r -> 0 <= r.
Proof.
  intros Px. unfold round64.
  destruct (Qcompare_spec x 0) as [C|C|C].
  - intros [= <-]. apply Qle_refl.
  - exfalso. lra.
  - unfold pack. destruct (Qle_bool (pow2 1024) (round_pos x)); [discriminate|].
    intros E. assert (E' : r = Qred (round_pos x)) by congruence.
    rewrite E', Qred_correct. now apply round_pos_nonneg.
Qed.

(** Rounding is monotonic: below a number that rounds to a finite value,
    a non-negative number rounds to a finite value that is not larger. *)
Lemma round64_le (x y ry : Q) :
  0 <= x -> x <= y -> round64 y = Fin ry ->
  exists rx, round64 x = Fin rx /\ 0 <= rx /\ rx <= ry.
Proof.
  intros Px L Ey.
  assert (Py : 0 <= ry) by (apply (round64_nonneg y); [lra | exact Ey]).
  unfold round64 in *.
  destruct (Qcompare_spec x 0) as [Cx|Cx|Cx].
  - exists 0. repeat split; [apply Qle_refl | exact Py].
  - exfalso. lra.
  - destruct (Qcompare_spec y 0) as [Cy|Cy|Cy]; [exfalso; lra|exfalso; lra|].
    assert (M := round_pos_mono x y Cx L).
    unfold pack in *.
    destruct (Qle_bool (pow2 1024) (round_pos y)) eqn:Ty; [discriminate|].
    assert (E' : ry = Qred (round_pos y)) by congruence.
    destruct (Qle_bool (pow2 1024) (round_pos x)) eqn:Tx.
    + exfalso. apply Qle_bool_iff in Tx.
      assert (C : Qle_bool (pow2 1024) (round_pos y) = true).
      { apply Qle_bool_iff. now apply Qle_trans with (round_pos x). }
      congruence.
    + eexists. split; [reflexivity|]. rewrite E', !Qred_correct.
      split; [now apply round_pos_nonneg | exact M].
Qed.

Lemma round64_0 : round64 0 = Fin 0.
Proof. reflexivity. Qed.

Lemma round64_1 : round64 1 = Fin 1.
Proof. vm_compute. reflexivity. Qed.

Lemma round64_255 : round64 (255 # 1) = Fin (255 # 1).
Proof. vm_compute. reflexivity. Qed.

End Rounding.

(** ** The abundance index *)

Lemma own_set_same (o : index) (k : string) (v : aval) :
  own (set o k v) k = Some v.
Proof.
  induction o as [|[k' v'] o IH]; simpl.
  - now rewrite String.eqb_refl.
  - destruct (String.eqb k' k) eqn:E; simpl; now rewrite E.
Qed.

Lemma own_set_other (o : index) (k k' : string) (v : aval) :
  k <> k' -> own (set o k v) k' = own o k'.
Proof.
  intros N. induction o as [|[k0 v0] o IH]; simpl.
  - destruct (String.eqb_spec k k'); congruence.
  - destruct (String.eqb_spec k0 k) as [->|]; simpl.
    + destruct (String.eqb_spec k k'); congruence.
    + now rewrite IH.
Qed.

Lemma get_set_same (o : index) (k : string) (v : aval) :
  get (set o k v) k = Some v.
Proof. unfold get. now rewrite own_set_same. Qed.

Lemma get_set_other (o : index) (k k' : string) (v : aval) :
  k <> k' -> get (set o k v) k' = get o k'.
Proof. intros N. unfold get. now rewrite own_set_other. Qed.

(** A property read that finds no own entry finds the members of
    [Object.prototype]. *)
Lemma get_inherited (o : index) (k : string) :
  own o k = None -> inherited k = true -> get o k = Some AObject.
Proof. intros E I. unfold get. now rewrite E, I. Qed.

Lemma get_number_own (o : index) (k : string) (x : num) :
  get o k = Some (ANum x) -> own o k = Some (ANum x).
Proof.
  unfold get. destruct (own o k) as [v|]; [trivial|].
  destruct (inherited k); discriminate.
Qed.


Lemma getHeatmapColor_absent (a : index) (k : string) :
  get a k = None -> getHeatmapColor a k = "#FFFFFF".
Proof. intros E. unfold getHeatmapColor. now rewrite E. Qed.

(** A falsy value takes the early return of line 298, present or not. *)
Lemma getHeatmapColor_falsy (a : index) (k : string) :
  Abundance.truthy (get a k) = false -> getHeatmapColor a k = "#FFFFFF".
Proof. intros E. unfold getHeatmapColor. now rewrite E. Qed.

Lemma getHeatmapColor_truthy (a : index) (k : string) :
  Abundance.truthy (get a k) = true ->
  getHeatmapColor a k =
    hex_color (Math_round (mul (ratio a k) (of_Z 255)))
              (Math_round (mul (sub (of_Z 1) (ratio a k)) (of_Z 255))).
Proof. intros E. unfold getHeatmapColor. now rewrite E. Qed.

Lemma loadJSON_frame (kegg_categories : index) :
  get (loadJSON kegg_categories) "_max"
  = Some (ANum (Math_max (numbers kegg_categories))) /\
  get (loadJSON kegg_categories) "_min"
  = Some (ANum (Math_min (numbers kegg_categories))) /\
  (forall k, k <> "_max" -> k <> "_min" ->
             get (loadJSON kegg_categories) k = get kegg_categories k).
Proof.
  unfold loadJSON. repeat split.
  - rewrite get_set_other by discriminate. apply get_set_same.
  - apply get_set_same.
  - intros k N1 N2. rewrite !get_set_other by congruence. reflexivity.
Qed.

(** The stored maximum is coloured as the gene holding the largest score. *)
Example bounds_coloured_as_scores :
  let a := loadJSON [("K00001", ANum (of_Z 1)); ("K00002", ANum (of_Z 3))] in
  getHeatmapColor a "_max" = "#FF0000" /\
  getHeatmapColor a "K00002" = "#FF0000" /\
  getHeatmapColor a "_min" = "#0000FF" /\
  getHeatmapColor (loadJSON []) "_max" = "#NAN00NAN".
Proof. vm_compute. repeat split. Qed.

(** Rounding and overflow show in the colours: with the scores [0.1],
    [0.2], [0.3] the ratio of the middle one is just above one half, and with
    [1e308], [-1e308], [5] the difference of the bounds is infinite.  A key
    that names a member of [Object.prototype] is found and treated as a
    score. *)
Example binary64_colours :
  let a := loadJSON [("K00001", ANum (literal (1 # 10)));
                     ("K00002", ANum (literal (2 # 10)));
                     ("K00003", ANum (literal (3 # 10)))] in
  let b := loadJSON [("K00001", ANum (literal (10 ^ 308)));
                     ("K00002", ANum (literal (- 10 ^ 308)));
                     ("K00003", ANum (of_Z 5))] in
  map (getHeatmapColor a) ["K00001"; "K00002"; "K00003"]
  = ["#0000FF"; "#80007F"; "#FF0000"] /\
  map (getHeatmapColor b) ["K00001"; "K00002"; "K00003"]
  = ["#NAN00NAN"; "#0000FF"; "#0000FF"] /\
  getHeatmapColor a "constructor" = "#NAN00NAN" /\
  getHeatmapColor a "K00004" = "#FFFFFF".
Proof. vm_compute. repeat split. Qed.

(** The score [0] is present in the index and falsy. *)
Lemma getHeatmapColor_zero (a : index) (k : string) (q : Q) :
  get a k = Some (ANum (Fin q)) -> q == 0 -> getHeatmapColor a k = "#FFFFFF".
Proof.
  intros E Z. apply getHeatmapColor_falsy. rewrite E. simpl.
  unfold is_zero. apply Qeq_bool_iff in Z. now rewrite Z.
Qed.

(** C2. On the index [{K00001: 0, K00002: 1}] the identifier [K00001] is
    present with score [0], yet [getHeatmapColor] answers the neutral
    [#FFFFFF] where the gradient of its ratio is [#0000FF]; the gene node
    built for it carries the tooltip of a present score next to the colour of
    an absent one. *)
Theorem C2_zero_score_gets_neutral_color :
  let abundanceData :=
    loadJSON [("K00001", ANum (of_Z 0)); ("K00002", ANum (of_Z 1))] in
  get abundanceData "K00001" = Some (ANum (of_Z 0)) /\
  getHeatmapColor abundanceData "K00001" = "#FFFFFF" /\
  hex_color
    (Math_round (mul (ratio abundanceData "K00001") (of_Z 255)))
    (Math_round (mul (sub (of_Z 1) (ratio abundanceData "K00001")) (of_Z 255)))
  = "#0000FF" /\
  createGeneNode abundanceData "K00001" (JStr "alcohol dehydrogenase") 0
  = Ok (Some (mkGene 0 "K00001" "#FFFFFF" "alcohol dehydrogenase"
                     (Some "Gene Conservation: 0.00"))).
Proof. vm_compute. repeat split. Qed.

(** With equal bounds every truthy score divides zero by zero. *)
Lemma getHeatmapColor_equal_bounds (a : index) (k : string) (q lo hi : Q) :
  get a k = Some (ANum (Fin q)) ->
  get a "_min" = Some (ANum (Fin lo)) ->
  get a "_max" = Some (ANum (Fin hi)) ->
  q == lo -> hi == lo -> ~ q == 0 ->
  getHeatmapColor a k = "#NAN00NAN".
Proof.
  intros Ek Elo Ehi E1 E2 NZ.
  rewrite getHeatmapColor_truthy.
  - unfold ratio. rewrite Ek, Elo, Ehi. cbn [ToNumber sub].
    rewrite (round64_comp (hi - lo) 0) by (rewrite E2; ring).
    rewrite (round64_comp (q - lo) 0) by (rewrite E1; ring).
    reflexivity.
  - rewrite Ek. simpl. unfold is_zero.
    destruct (Qeq_bool q 0) eqn:E; [|reflexivity].
    apply Qeq_bool_iff in E. contradiction.
Qed.

(** C3. On an index with the single score [5] the bounds coincide and
    [getHeatmapColor] returns [#NAN00NAN], which is no hex colour: it has no
    channels to read back. *)
Theorem C3_single_value_yields_nan :
  let abundanceData := loadJSON [("K00001", ANum (of_Z 5))] in
  get abundanceData "_max" = get abundanceData "_min" /\
  getHeatmapColor abundanceData "K00001" = "#NAN00NAN" /\
  channels (getHeatmapColor abundanceData "K00001") = None.
Proof. vm_compute. repeat split. Qed.

(** C6. On the index [{K00001: 0, K00002: 1, K00003: 2}] the scores of
    [K00001] and [K00002] are [0 < 1], but the red channels of their colours
    are [255 > 128]: the zero score takes the neutral [#FFFFFF]. *)
Theorem C6_zero_score_breaks_monotonicity :
  let abundanceData :=
    loadJSON [("K00001", ANum (of_Z 0)); ("K00002", ANum (of_Z 1));
              ("K00003", ANum (of_Z 2))] in
  get abundanceData "K00001" = Some (ANum (of_Z 0)) /\
  get abundanceData "K00002" = Some (ANum (of_Z 1)) /\
  red (getHeatmapColor abundanceData "K00001") = Some 255 /\
  red (getHeatmapColor abundanceData "K00002") = Some 128.
Proof. vm_compute. repeat split. Qed.

(** ** The gradient away from the zero score *)

Lemma toUpperCase_app (s t : string) :
  toUpperCase (s ++ t) = toUpperCase s ++ toUpperCase t.
Proof. induction s as [|c s IH]; simpl; [reflexivity | now rewrite IH]. Qed.

(** A channel between 0 and 255 is written as two hexadecimal digits that
    read back as the channel. *)
Lemma channel_digits (z : Z) :
  0 <= z <= 255 ->
  exists h l,
    toUpperCase (padStart0 2 (toString16 (RInt z))) = String h (String l "")
    /\ hex_byte h l = Some z.
Proof.
  intros R.
  pose (check := fun n : nat =>
    match toUpperCase (padStart0 2 (toString16 (RInt (Z.of_nat n)))) with
    | String h (String l EmptyString) =>
        match hex_byte h l with
        | Some v => v =? Z.of_nat n
        | None => false
        end
    | _ => false
    end).
  assert (All : forallb check (seq 0 256) = true) by (vm_compute; reflexivity).
  rewrite forallb_forall in All.
  assert (I : In (Z.to_nat z) (seq 0 256)) by (apply in_seq; lia).
  specialize (All _ I). unfold check in All.
  rewrite Z2Nat.id in All by lia.
  destruct (toUpperCase (padStart0 2 (toString16 (RInt z))))
    as [|h [|l [|x t]]]; try discriminate All.
  exists h, l. split; [reflexivity|].
  destruct (hex_byte h l) as [v|]; [|discriminate All].
  apply Z.eqb_eq in All. now subst v.
Qed.

Lemma channels_hex_color (r b : Z) :
  0 <= r <= 255 -> 0 <= b <= 255 ->
  channels (hex_color (RInt r) (RInt b)) = Some (r, 0, b).
Proof.
  intros Hr Hb. unfold hex_color.
  change ("#" ++ padStart0 2 (toString16 (RInt r)) ++ "00"
              ++ padStart0 2 (toString16 (RInt b)))
    with (String "#" (padStart0 2 (toString16 (RInt r)) ++ "00"
                                ++ padStart0 2 (toString16 (RInt b)))).
  cbn [toUpperCase]. rewrite !toUpperCase_app.
  destruct (channel_digits r Hr) as (h1 & l1 & -> & E1).
  destruct (channel_digits b Hb) as (h2 & l2 & -> & E2).
  change (upper_char "#") with "#"%char.
  change (toUpperCase "00") with "00".
  cbn [append channels]. rewrite E1, E2. reflexivity.
Qed.

Section Gradient.

Local Open Scope Q_scope.

Lemma max2_fold_finite (qs : list Q) (acc : Q) :
  exists m, fold_left max2 (map Fin qs) (Fin acc) = Fin m
            /\ acc <= m /\ forall q, In q qs -> q <= m.
Proof.
  revert acc. induction qs as [|q qs IH]; intros acc.
  - exists acc. repeat split; [apply Qle_refl | intros q []].
  - simpl. destruct (Qle_bool acc q) eqn:C.
    + apply Qle_bool_iff in C.
      destruct (IH q) as (m & E & L & A). exists m. repeat split.
      * exact E.
      * now apply Qle_trans with q.
      * intros x [<-|I]; [exact L | now apply A].
    + destruct (IH acc) as (m & E & L & A). exists m. repeat split.
      * exact E.
      * exact L.
      * intros x [<-|I]; [|now apply A].
        apply Qle_trans with acc; [|exact L].
        apply Qlt_le_weak, Qnot_le_lt. intros N.
        apply Qle_bool_iff in N. congruence.
Qed.

Lemma min2_fold_finite (qs : list Q) (acc : Q) :
  exists m, fold_left min2 (map Fin qs) (Fin acc) = Fin m
            /\ m <= acc /\ forall q, In q qs -> m <= q.
Proof.
  revert acc. induction qs as [|q qs IH]; intros acc.
  - exists acc. repeat split; [apply Qle_refl | intros q []].
  - simpl. destruct (Qle_bool acc q) eqn:C.
    + apply Qle_bool_iff in C.
      destruct (IH acc) as (m & E & L & A). exists m. repeat split.
      * exact E.
      * exact L.
      * intros x [<-|I]; [now apply Qle_trans with acc | now apply A].
    + destruct (IH q) as (m & E & L & A). exists m. repeat split.
      * exact E.
      * apply Qle_trans with q; [exact L|].
        apply Qlt_le_weak, Qnot_le_lt. intros N.
        apply Qle_bool_iff in N. congruence.
      * intros x [<-|I]; [exact L | now apply A].
Qed.

(** The bounds of a non-empty list of finite numbers are finite and
    enclose its elements. *)
Lemma Math_bounds_finite (q0 : Q) (qs : list Q) :
  exists lo hi,
    Math_min (map Fin (q0 :: qs)) = Fin lo /\
    Math_max (map Fin (q0 :: qs)) = Fin hi /\
    forall q, In q (q0 :: qs) -> lo <= q <= hi.
Proof.
  unfold Math_min, Math_max. simpl.
  destruct (min2_fold_finite qs q0) as (lo & El & Ll & Al).
  destruct (max2_fold_finite qs q0) as (hi & Eh & Lh & Ah).
  exists lo, hi. repeat split; try assumption.
  - destruct H as [<-|I]; [exact Ll | now apply Al].
  - destruct H as [<-|I]; [exact Lh | now apply Ah].
Qed.

Lemma own_numbers (o : index) (k : string) (x : num) :
  own o k = Some (ANum x) -> In x (numbers o).
Proof.
  induction o as [|[k' v] o IH]; simpl; [discriminate|].
  destruct (String.eqb k' k).
  - intros [= ->]. now left.
  - intros H. specialize (IH H). destruct v; simpl; auto.
Qed.

Lemma get_numbers (o : index) (k : string) (x : num) :
  get o k = Some (ANum x) -> In x (numbers o).
Proof. intros H. apply (own_numbers o k), get_number_own, H. Qed.

(** After [loadJSON] of a document with finite scores, every finite value
    read from the index lies between the stored bounds. *)
Lemma loadJSON_bounds (kegg_categories : index) (qs : list Q) (k : string)
      (q : Q) :
  numbers kegg_categories = map Fin qs ->
  get (loadJSON kegg_categories) k = Some (ANum (Fin q)) ->
  exists lo hi,
    get (loadJSON kegg_categories) "_min" = Some (ANum (Fin lo)) /\
    get (loadJSON kegg_categories) "_max" = Some (ANum (Fin hi)) /\
    lo <= q <= hi.
Proof.
  intros F G.
  destruct (loadJSON_frame kegg_categories) as (Gmax & Gmin & Other).
  rewrite F in Gmax, Gmin.
  destruct qs as [|q0 qs].
  - exfalso. destruct (String.eqb_spec k "_max") as [->|N1].
    + rewrite Gmax in G. discriminate G.
    + destruct (String.eqb_spec k "_min") as [->|N2].
      * rewrite Gmin in G. discriminate G.
      * rewrite (Other k N1 N2) in G. apply get_numbers in G.
        rewrite F in G. destruct G.
  - destruct (Math_bounds_finite q0 qs) as (lo & hi & El & Eh & A).
    rewrite El in Gmin. rewrite Eh in Gmax.
    exists lo, hi. split; [exact Gmin|]. split; [exact Gmax|].
    destruct (String.eqb_spec k "_max") as [->|N1].
    + rewrite Gmax in G. injection G as <-.
      destruct (A q0 (or_introl eq_refl)). split; [|apply Qle_refl].
      now apply Qle_trans with q0.
    + destruct (String.eqb_spec k "_min") as [->|N2].
      * rewrite Gmin in G. injection G as <-.
        destruct (A q0 (or_introl eq_refl)). split; [apply Qle_refl|].
        now apply Qle_trans with q0.
      * rewrite (Other k N1 N2) in G. apply get_numbers in G.
        rewrite F in G. apply in_map_iff in G as (q' & E & I).
        injection E as ->. now apply A.
Qed.

Lemma is_zero_false (q : Q) : ~ q == 0 -> is_zero q = false.
Proof.
  intros N. unfold is_zero. destruct (Qeq_bool q 0) eqn:E; [|reflexivity].
  apply Qeq_bool_iff in E. contradiction.
Qed.

Lemma Qfloor_channel (x : Q) :
  0 <= x -> x <= 255 -> (0 <= Qfloor (x + (1 # 2)) <= 255)%Z.
Proof.
  intros H0 H1. split.
  - apply (Qfloor_resp_le 0). lra.
  - apply (Qfloor_resp_le (x + (1 # 2)) (511 # 2)). lra.
Qed.

(** The ratios of two scores in range, the smaller one first: when the
    difference of the bounds is finite and not zero, both ratios are finite,
    lie between 0 and 1, and keep the order of the scores. *)
Lemma ratio_levels (a : index) (k1 k2 : string) (q1 q2 lo hi d : Q) :
  get a k1 = Some (ANum (Fin q1)) ->
  get a k2 = Some (ANum (Fin q2)) ->
  get a "_min" = Some (ANum (Fin lo)) ->
  get a "_max" = Some (ANum (Fin hi)) ->
  lo <= q1 -> q1 <= q2 -> q2 <= hi ->
  sub (Fin hi) (Fin lo) = Fin d -> ~ d == 0 ->
  exists rho1 rho2,
    ratio a k1 = Fin rho1 /\ ratio a k2 = Fin rho2 /\
    0 <= rho1 /\ rho1 <= rho2 /\ rho2 <= 1.
Proof.
  intros G1 G2 Glo Ghi L1 L12 L2 Hd NZ.
  unfold ratio. rewrite G1, G2, Glo, Ghi. cbn [ToNumber sub] in *.
  destruct (round64_le (q2 - lo) (hi - lo) d) as (n2 & E2 & P2 & U2);
    [lra | lra | exact Hd |].
  destruct (round64_le (q1 - lo) (q2 - lo) n2) as (n1 & E1 & P1 & U1);
    [lra | lra | exact E2 |].
  rewrite E1, E2, Hd. cbn [div]. rewrite (is_zero_false d NZ).
  assert (Pd : 0 < d).
  { assert (P : 0 <= d) by (apply (round64_nonneg (hi - lo)); [lra | exact Hd]).
    destruct (Qle_lt_or_eq _ _ P) as [H|H]; [exact H|].
    exfalso. apply NZ. now symmetry. }
  assert (I : 0 <= / d) by (apply Qinv_le_0_compat; lra).
  assert (M12 : n1 / d <= n2 / d)
    by (unfold Qdiv; now apply Qmult_le_compat_r).
  assert (M0 : 0 <= n1 / d)
    by (unfold Qdiv; now apply Qmult_le_0_compat).
  assert (M1 : n2 / d <= 1)
    by (apply Qle_shift_div_r; [exact Pd | lra]).
  destruct (round64_le (n2 / d) 1 1) as (rho2 & R2 & Q2 & V2);
    [lra | exact M1 | exact round64_1 |].
  destruct (round64_le (n1 / d) (n2 / d) rho2) as (rho1 & R1 & Q1 & V1);
    [exact M0 | exact M12 | exact R2 |].
  exists rho1, rho2. rewrite R1, R2. repeat split; assumption.
Qed.

(** The channels of two ratios between 0 and 1, the smaller one first:
    all four lie between 0 and 255, red keeps the order of the ratios and
    blue reverses it. *)
Lemma channel_levels (rho1 rho2 : Q) :
  0 <= rho1 -> rho1 <= rho2 -> rho2 <= 1 ->
  exists r1 r2 b1 b2 : Z,
    Math_round (mul (Fin rho1) (of_Z 255)) = RInt r1 /\
    Math_round (mul (Fin rho2) (of_Z 255)) = RInt r2 /\
    Math_round (mul (sub (of_Z 1) (Fin rho1)) (of_Z 255)) = RInt b1 /\
    Math_round (mul (sub (of_Z 1) (Fin rho2)) (of_Z 255)) = RInt b2 /\
    (0 <= r1 <= r2)%Z /\ (r2 <= 255)%Z /\ (0 <= b2 <= b1)%Z /\ (b1 <= 255)%Z.
Proof.
  intros H0 H12 H1. cbn [mul sub of_Z].
  change (inject_Z 255) with 255. change (inject_Z 1) with 1.
  destruct (round64_le (rho2 * 255) 255 255) as (r2 & R2 & P2 & U2);
    [lra | lra | exact round64_255 |].
  destruct (round64_le (rho1 * 255) (rho2 * 255) r2) as (r1 & R1 & P1 & U1);
    [lra | lra | exact R2 |].
  destruct (round64_le (1 - rho1) 1 1) as (s1 & S1 & Ps1 & Us1);
    [lra | lra | exact round64_1 |].
  destruct (round64_le (1 - rho2) (1 - rho1) s1) as (s2 & S2 & Ps2 & Us2);
    [lra | lra | exact S1 |].
  rewrite R1, R2, S1, S2. cbn [mul of_Z]. change (inject_Z 255) with 255.
  destruct (round64_le (s1 * 255) 255 255) as (b1 & B1 & Pb1 & Ub1);
    [lra | lra | exact round64_255 |].
  destruct (round64_le (s2 * 255) (s1 * 255) b1) as (b2 & B2 & Pb2 & Ub2);
    [lra | lra | exact B1 |].
  rewrite B1, B2. cbn [Math_round].
  do 4 eexists. do 4 (split; [reflexivity|]).
  assert (Hr1 := Qfloor_channel r1). assert (Hr2 := Qfloor_channel r2).
  assert (Hb1 := Qfloor_channel b1). assert (Hb2 := Qfloor_channel b2).
  assert (Mr : (Qfloor (r1 + (1 # 2)) <= Qfloor (r2 + (1 # 2)))%Z)
    by (apply Qfloor_resp_le; lra).
  assert (Mb : (Qfloor (b2 + (1 # 2)) <= Qfloor (b1 + (1 # 2)))%Z)
    by (apply Qfloor_resp_le; lra).
  repeat split;
    first [ exact Mr | exact Mb | apply Hr1; lra | apply Hr2; lra
          | apply Hb1; lra | apply Hb2; lra ].
Qed.

Lemma truthy_score (a : index) (k : string) (q : Q) :
  get a k = Some (ANum (Fin q)) -> ~ q == 0 ->
  Abundance.truthy (get a k) = true.
Proof. intros G NZ. rewrite G. simpl. now rewrite (is_zero_false _ NZ). Qed.

(** Between finite bounds whose difference is finite and not zero, the
    colours of two non-zero scores in range read back as channels between 0
    and 255; the larger score has at least as much red and at most as much
    blue. *)
Lemma getHeatmapColor_levels (a : index) (k1 k2 : string)
      (q1 q2 lo hi d : Q) :
  get a k1 = Some (ANum (Fin q1)) ->
  get a k2 = Some (ANum (Fin q2)) ->
  get a "_min" = Some (ANum (Fin lo)) ->
  get a "_max" = Some (ANum (Fin hi)) ->
  lo <= q1 -> q1 <= q2 -> q2 <= hi ->
  sub (Fin hi) (Fin lo) = Fin d -> ~ d == 0 ->
  ~ q1 == 0 -> ~ q2 == 0 ->
  exists r1 b1 r2 b2 : Z,
    channels (getHeatmapColor a k1) = Some (r1, 0%Z, b1) /\
    channels (getHeatmapColor a k2) = Some (r2, 0%Z, b2) /\
    (0 <= r1 <= r2)%Z /\ (r2 <= 255)%Z /\ (0 <= b2 <= b1)%Z /\ (b1 <= 255)%Z.
Proof.
  intros G1 G2 Glo Ghi L1 L12 L2 Hd NZ N1 N2.
  destruct (ratio_levels a k1 k2 q1 q2 lo hi d G1 G2 Glo Ghi L1 L12 L2 Hd NZ)
    as (rho1 & rho2 & E1 & E2 & P & M & U).
  destruct (channel_levels rho1 rho2 P M U)
    as (r1 & r2 & b1 & b2 & R1 & R2 & B1 & B2 & Hr & Hr' & Hb & Hb').
  exists r1, b1, r2, b2.
  rewrite (getHeatmapColor_truthy a k1 (truthy_score a k1 q1 G1 N1)).
  rewrite (getHeatmapColor_truthy a k2 (truthy_score a k2 q2 G2 N2)).
  rewrite E1, E2, R1, R2, B1, B2.
  rewrite !channels_hex_color by lia.
  repeat split; lia.
Qed.

Lemma max2_fold_attained (qs : list Q) (acc m : Q) :
  fold_left max2 (map Fin qs) (Fin acc) = Fin m -> m = acc \/ In m qs.
Proof.
  revert acc. induction qs as [|q qs IH]; intros acc.
  - intros [= ->]. now left.
  - simpl. destruct (Qle_bool acc q); intros H; apply IH in H as [->|I];
      auto.
Qed.

Lemma min2_fold_attained (qs : list Q) (acc m : Q) :
  fold_left min2 (map Fin qs) (Fin acc) = Fin m -> m = acc \/ In m qs.
Proof.
  revert acc. induction qs as [|q qs IH]; intros acc.
  - intros [= ->]. now left.
  - simpl. destruct (Qle_bool acc q); intros H; apply IH in H as [->|I];
      auto.
Qed.

(** The stored bounds of a loaded document are two of its scores. *)
Lemma loadJSON_bounds_attained (kegg_categories : index) (qs : list Q)
      (lo hi : Q) :
  numbers kegg_categories = map Fin qs ->
  get (loadJSON kegg_categories) "_min" = Some (ANum (Fin lo)) ->
  get (loadJSON kegg_categories) "_max" = Some (ANum (Fin hi)) ->
  In lo qs /\ In hi qs.
Proof.
  intros F Glo Ghi.
  destruct (loadJSON_frame kegg_categories) as (Gmax & Gmin & _).
  rewrite F in Gmax, Gmin. rewrite Gmax in Ghi. rewrite Gmin in Glo.
  injection Ghi as Ehi. injection Glo as Elo.
  destruct qs as [|q0 qs]; [discriminate Ehi|].
  unfold Math_max in Ehi. unfold Math_min in Elo. simpl in Ehi, Elo.
  apply max2_fold_attained in Ehi. apply min2_fold_attained in Elo.
  split; simpl; [destruct Elo | destruct Ehi]; auto.
Qed.

(** The two ends of the gradient: a non-zero score equal to [_max] is pure
    red, one equal to [_min] pure blue, when the difference of the bounds is
    finite and not zero. *)
Lemma getHeatmapColor_ends (a : index) (k : string) (q lo hi d : Q) :
  get a k = Some (ANum (Fin q)) ->
  get a "_min" = Some (ANum (Fin lo)) ->
  get a "_max" = Some (ANum (Fin hi)) ->
  sub (Fin hi) (Fin lo) = Fin d -> ~ d == 0 -> ~ q == 0 ->
  (q == hi -> getHeatmapColor a k = "#FF0000") /\
  (q == lo -> getHeatmapColor a k = "#0000FF").
Proof.
  intros G Glo Ghi Hd NZ N.
  rewrite (getHeatmapColor_truthy a k (truthy_score a k q G N)).
  unfold ratio. rewrite G, Glo, Ghi. cbn [ToNumber sub] in *.
  split; intros E.
  - rewrite (round64_comp (q - lo) (hi - lo)) by (rewrite E; reflexivity).
    rewrite Hd. cbn [div]. rewrite (is_zero_false d NZ).
    rewrite (round64_comp (d / d) 1) by (field; exact NZ).
    rewrite round64_1. vm_compute. reflexivity.
  - rewrite (round64_comp (q - lo) 0) by (rewrite E; ring).
    rewrite round64_0, Hd. cbn [div]. rewrite (is_zero_false d NZ).
    rewrite (round64_comp (0 / d) 0) by (field; exact NZ).
    rewrite round64_0. vm_compute. reflexivity.
Qed.

End Gradient.




(** ** URLs *)

Lemma encodeURIComponent_unreserved (s : string) :
  Grammar.forall_units uri_unreserved s = true -> encodeURIComponent s = s.
Proof.
  induction s as [|c s IH]; simpl; [reflexivity|].
  intros H. apply andb_prop in H as [Hc Hs].
  unfold encode_unit. rewrite Hc. simpl. now rewrite IH.
Qed.

Lemma hex_digit_unreserved (c : ascii) :
  Grammar.is_hex_digit c = true -> uri_unreserved c = true.
Proof.
  unfold Grammar.is_hex_digit, hex_value, uri_unreserved, is_alnum, is_digit.
  set (n := code c).
  destruct ((48 <=? n) && (n <=? 57)) eqn:D; [reflexivity|].
  destruct ((65 <=? n) && (n <=? 70)) eqn:U.
  - intros _. apply andb_prop in U as [U1 U2].
    apply Z.leb_le in U1, U2.
    assert (E : (65 <=? n) && (n <=? 90) = true)
      by (apply andb_true_intro; split; apply Z.leb_le; lia).
    rewrite E. now rewrite orb_true_r.
  - destruct ((97 <=? n) && (n <=? 102)) eqn:L; [|discriminate].
    intros _. apply andb_prop in L as [L1 L2].
    apply Z.leb_le in L1, L2.
    assert (E : (97 <=? n) && (n <=? 122) = true)
      by (apply andb_true_intro; split; apply Z.leb_le; lia).
    rewrite E. now rewrite !orb_true_r.
Qed.

Lemma forall_units_impl (f g : ascii -> bool) (s : string) :
  (forall c, f c = true -> g c = true) ->
  Grammar.forall_units f s = true -> Grammar.forall_units g s = true.
Proof.
  intros I. induction s as [|c s IH]; simpl; [reflexivity|].
  intros H. apply andb_prop in H as [Hc Hs].
  now rewrite (I _ Hc), IH.
Qed.

(** On a colour [#RRGGBB], replacing the first [#] is percent-encoding. *)
Lemma replace_hash_hex6 (c : string) :
  Grammar.hex6 c = true -> replace_first "#" "%23" c = encodeURIComponent c.
Proof.
  destruct c as [|h w]; [discriminate|].
  unfold Grammar.hex6.
  destruct (Ascii.eqb_spec h "#"%char) as [->|N].
  - intros H. apply andb_prop in H as [_ H].
    change (replace_first "#" "%23" (String "#" w)) with ("%23" ++ w).
    change (encodeURIComponent (String "#" w))
      with ("%23" ++ encodeURIComponent w).
    rewrite encodeURIComponent_unreserved; [reflexivity|].
    eapply forall_units_impl; [apply hex_digit_unreserved | exact H].
  - intros H. exfalso. apply N.
    destruct h as [[] [] [] [] [] [] [] []]; try discriminate H. reflexivity.
Qed.

(** C8. For the identifier [ko:K00001] the heatmap URL carries the
    identifier verbatim, [ko:K00001], where percent-encoding gives
    [ko%3AK00001], the form that [updateKEGGUrl] produces for the same
    identifier. *)
Theorem C8_heatmap_identifier_not_encoded :
  let abundanceData :=
    loadJSON [("ko:K00001", ANum (of_Z 1)); ("K00002", ANum (of_Z 3))] in
  generateHeatmapKEGGUrl abundanceData "map00010" ["ko:K00001"]
  = "https://www.kegg.jp/kegg-bin/show_pathway?map00010/ko:K00001%09%230000FF/default%3d%23FFFFFF" /\
  Grammar.url "map00010"
    [Grammar.single_segment
       ("ko:K00001", getHeatmapColor abundanceData "ko:K00001")]
  = "https://www.kegg.jp/kegg-bin/show_pathway?map00010/ko%3AK00001%09%230000FF/default%3d%23FFFFFF" /\
  queryPart (mkOption "ko:K00001" "#0000FF" "#FFFFFF")
  = "ko%3AK00001%09%230000FF,%23FFFFFF" /\
  handleHeatmapClick abundanceData "map00010"
    [JObj [("ko:K00001", JStr "gene")]] initial
  = Ok (Some "https://www.kegg.jp/kegg-bin/show_pathway?map00010/ko:K00001%09%230000FF/default%3d%23FFFFFF", initial).
Proof. vm_compute. repeat split. Qed.

(** For identifiers made of unreserved characters the heatmap URL follows
    the grammar, one colour per segment. *)
Lemma generateHeatmapKEGGUrl_unreserved (a : index) (mapId : string)
      (ks : list string) :
  Forall (fun k => Grammar.forall_units uri_unreserved k = true) ks ->
  generateHeatmapKEGGUrl a mapId ks
  = Grammar.url mapId
      (map (fun k => Grammar.single_segment (k, getHeatmapColor a k)) ks).
Proof.
  intros H. unfold generateHeatmapKEGGUrl, Grammar.url, base_url.
  assert (E : map (fun k => k ++ "%09"
                               ++ encodeURIComponent (getHeatmapColor a k)) ks
              = map (fun k => Grammar.single_segment (k, getHeatmapColor a k))
                    ks).
  { induction H as [|k ks Hk _ IH]; [reflexivity|].
    cbn [map]. f_equal; [|exact IH].
    unfold Grammar.single_segment.
    now rewrite (encodeURIComponent_unreserved _ Hk). }
  now rewrite E.
Qed.

(** ** The customisation panel *)

Lemma updateKEGGUrl_frame (p : page) :
  colorSelection (updateKEGGUrl p) = colorSelection p /\
  pathwayInput (updateKEGGUrl p) = pathwayInput p /\
  panel_visible (updateKEGGUrl p) = panel_visible p.
Proof.
  unfold updateKEGGUrl.
  destruct (negb (test_map 5 (trim (pathwayInput p)))).
  - destruct (JSString.truthy (trim (pathwayInput p))); repeat split.
  - destruct (List.length (colorSelection p) =? 0)%nat; repeat split.
Qed.

Lemma starts_with_split (pat s : string) :
  starts_with pat s = true -> s = pat ++ drop (String.length pat) s.
Proof.
  revert s. induction pat as [|a pat IH]; intros [|b s]; simpl;
    try reflexivity; try discriminate.
  intros H. apply andb_prop in H as [E H].
  apply Ascii.eqb_eq in E. subst b. now rewrite <- IH.
Qed.

Lemma starts_with_append (pat s : string) : starts_with pat (pat ++ s) = true.
Proof.
  induction pat as [|a pat IH]; simpl; [reflexivity|].
  now rewrite Ascii.eqb_refl, IH.
Qed.

Lemma drop_append (pat s : string) : drop (String.length pat) (pat ++ s) = s.
Proof. induction pat as [|a pat IH]; simpl; [now destruct s | exact IH]. Qed.

(** The test of line 326 decides the grammar [map] + five digits. *)
Lemma test_map_5_grammar (s : string) :
  test_map 5 s = true <-> Grammar.map_id s.
Proof.
  unfold test_map, Grammar.map_id. split.
  - intros H.
    apply andb_prop in H as [H L5]. apply andb_prop in H as [H L0].
    apply andb_prop in H as [P D].
    apply starts_with_split in P. simpl String.length in P.
    destruct (drop 3 s) as [|d1 [|d2 [|d3 [|d4 [|d5 [|d6 r]]]]]];
      try discriminate.
    exists d1, d2, d3, d4, d5. split; [|exact P].
    exact D.
  - intros (d1 & d2 & d3 & d4 & d5 & D & ->).
    rewrite starts_with_append.
    change 3%nat with (String.length "map"). rewrite drop_append.
    cbn [forallb] in D. cbn [all_digits String.length Nat.leb].
    now rewrite D.
Qed.

(** A colour input holds a valid simple colour, whatever was written
    into it. *)
Lemma toLowerCase_all_hex (w : string) :
  all_hex w = true ->
  all_hex (toLowerCase w) = true
  /\ String.length (toLowerCase w) = String.length w.
Proof.
  induction w as [|c w IH]; [now split|].
  cbn [all_hex toLowerCase String.length].
  destruct (hex_value c) eqn:E; [|discriminate].
  intros H. destruct (IH H) as [A L]. rewrite A, L.
  split; [|reflexivity].
  assert (V : hex_value (lower_char c) <> None).
  { clear - E. destruct c as [[] [] [] [] [] [] [] []];
      try discriminate E; discriminate. }
  destruct (hex_value (lower_char c)); [reflexivity | contradiction].
Qed.

Lemma simple_color_hex6 (v : string) : Grammar.hex6 v = simple_color v.
Proof.
  unfold Grammar.hex6, simple_color.
  destruct v as [|h w]; [reflexivity|].
  assert (E : Grammar.forall_units Grammar.is_hex_digit w = all_hex w).
  { clear. induction w as [|c w IH]; [reflexivity|].
    cbn [Grammar.forall_units all_hex]. unfold Grammar.is_hex_digit.
    destruct (hex_value c); [exact IH | reflexivity]. }
  now rewrite E.
Qed.

Lemma sanitize_color_hex6 (v : string) :
  Grammar.hex6 (sanitize_color v) = true.
Proof.
  unfold sanitize_color. destruct (simple_color v) eqn:E; [|reflexivity].
  rewrite simple_color_hex6.
  destruct v as [|h w]; [discriminate E|]. unfold simple_color in *.
  destruct (Ascii.eqb_spec h "#"%char) as [->|N].
  - apply andb_prop in E as [L A].
    destruct (toLowerCase_all_hex w A) as [A' L'].
    change (toLowerCase (String "#" w)) with (String "#" (toLowerCase w)).
    cbv iota beta. now rewrite L', L, A'.
  - exfalso. destruct h as [[] [] [] [] [] [] [] []]; try discriminate E.
    now apply N.
Qed.

(** C4, as amended.  From the initial page, opening the panel on
    [map00010] and adding the gene [K00001] with the default colours stores
    the URL of the specification with the colours in LOWERCASE, as the colour
    inputs hold them.  In general, for a pathway field whose trimmed text is
    a valid id and a non-empty selection with colours of the form [#RRGGBB],
    the stored URL is the base endpoint, the trimmed pathway id, [/], and per
    entry in insertion order the percent-encoded TRIMMED identifier, [%09],
    the percent-encoded background, [,] and the percent-encoded foreground,
    joined by [/] and closed by [/default%3d%23FFFFFF]. *)
Theorem C4_url_of_selection :
  keggUrlInput
    (run [ECustomize "map00010" true; EGeneClick "K00001"] initial)
  = "https://www.kegg.jp/kegg-bin/show_pathway?map00010/K00001%09%23ff0000,%23ffffff/default%3d%23FFFFFF"
  /\
  forall p : page,
    test_map 5 (trim (pathwayInput p)) = true ->
    colorSelection p <> [] ->
    Forall (fun o => Grammar.hex6 (bgcolor o) = true
                     /\ Grammar.hex6 (fgcolor o) = true) (colorSelection p) ->
    keggUrlInput (updateKEGGUrl p)
    = Grammar.url (trim (pathwayInput p))
        (map (fun o => Grammar.pair_segment
                         (trim (ec_number o), bgcolor o, fgcolor o))
             (colorSelection p))
    /\ keggLink_href (updateKEGGUrl p) = keggUrlInput (updateKEGGUrl p)
    /\ keggLink_hidden (updateKEGGUrl p) = false.
Proof.
  split; [vm_compute; reflexivity|].
  intros p V NE C. unfold updateKEGGUrl. rewrite V. simpl negb. cbv iota.
  destruct (colorSelection p) as [|o l] eqn:E; [congruence|].
  change (List.length (o :: l) =? 0)%nat with false. cbv iota.
  unfold set_url. cbn [keggUrlInput keggLink_href keggLink_hidden].
  repeat split.
  unfold Grammar.url, base_url.
  assert (M : map queryPart (o :: l)
              = map (fun o => Grammar.pair_segment
                                (trim (ec_number o), bgcolor o, fgcolor o))
                    (o :: l)).
  { clear E NE. induction C as [|x xs [Hb Hf] _ IH]; [reflexivity|].
    cbn [map]. f_equal; [|exact IH].
    unfold queryPart, Grammar.pair_segment.
    now rewrite (replace_hash_hex6 _ Hb), (replace_hash_hex6 _ Hf). }
  now rewrite M.
Qed.

Lemma C4_witness :
  let p := run [EGeneClick "K00001"; EGeneClick " K 2 ";
                EPickColor 1 "#00ff00" "#000000";
                ETypePathway " map000109"] initial in
  pathwayInput p = " map00010" /\
  keggUrlInput (updateKEGGUrl p)
  = Grammar.url "map00010"
      [Grammar.pair_segment ("K00001", "#ff0000", "#ffffff");
       Grammar.pair_segment ("K 2", "#00ff00", "#000000")].
Proof.
  split; [reflexivity|].
  refine (proj1 (proj2 C4_url_of_selection
                   (run [EGeneClick "K00001"; EGeneClick " K 2 ";
                         EPickColor 1 "#00ff00" "#000000";
                         ETypePathway " map000109"] initial) _ _ _)).
  - reflexivity.
  - discriminate.
  - repeat constructor.
Defined.

(** Where the claim fails.  The colours of the entry [K00001], [#FF0000],
    [#FFFFFF] are read back from the colour inputs in lowercase, so the URL
    is not the one of the claim; and the identifier [ K00001] (with a leading
    space), selected from the tree, enters the URL as [K00001] and not as its
    percent-encoding [%20K00001]. *)
Lemma C4_counterexample :
  keggUrlInput
    (run [ECustomize "map00010" true; EGeneClick "K00001"] initial)
  <> "https://www.kegg.jp/kegg-bin/show_pathway?map00010/K00001%09%23FF0000,%23FFFFFF/default%3d%23FFFFFF"
  /\
  let p := run [ECustomize "map00010" true; EGeneClick " K00001"] initial in
  colorSelection p = [mkOption " K00001" "#ff0000" "#ffffff"] /\
  keggUrlInput p
  = "https://www.kegg.jp/kegg-bin/show_pathway?map00010/K00001%09%23ff0000,%23ffffff/default%3d%23FFFFFF" /\
  Grammar.url "map00010"
    [Grammar.pair_segment (" K00001", "#ff0000", "#ffffff")]
  = "https://www.kegg.jp/kegg-bin/show_pathway?map00010/%20K00001%09%23ff0000,%23ffffff/default%3d%23FFFFFF" /\
  keggUrlInput p
  <> Grammar.url "map00010"
       [Grammar.pair_segment (" K00001", "#ff0000", "#ffffff")].
Proof. vm_compute. repeat split; discriminate. Qed.

(** C5, as amended.  [updateKEGGUrl] accepts the pathway field exactly when
    its TRIMMED text matches [map] + five ASCII digits ([map00010] is
    accepted, [map123] rejected).  On rejection the URL field is cleared and
    the link hidden, selection and pathway field are untouched, and the error
    message is displayed UNLESS THE TRIMMED TEXT IS EMPTY, in which case
    nothing is displayed.  The function is total: no input makes it fail. *)
Theorem C5_pathway_id_validation (p : page) :
  let mapId := trim (pathwayInput p) in
  let p' := updateKEGGUrl p in
  (test_map 5 mapId = true <-> Grammar.map_id mapId) /\
  (test_map 5 mapId = false ->
   keggUrlInput p' = "" /\ keggLink_href p' = "#" /\
   keggLink_text p' = "" /\ keggLink_hidden p' = true /\
   colorSelection p' = colorSelection p /\
   pathwayInput p' = pathwayInput p /\
   messages p'
   = if JSString.truthy mapId
     then (messages p
             ++ [("Invalid pathway ID. Must be in format map00000", error)])%list
     else messages p) /\
  (test_map 5 mapId = true ->
   ~ In ("Invalid pathway ID. Must be in format map00000", error)
        (skipn (List.length (messages p)) (messages p'))) /\
  test_map 5 (trim "map00010") = true /\
  test_map 5 (trim "map123") = false.
Proof.
  intros mapId p'. split; [apply test_map_5_grammar|].
  unfold p', updateKEGGUrl. fold mapId.
  split; [|split; [|split; reflexivity]].
  - intros R. rewrite R. simpl negb. cbv iota.
    destruct (JSString.truthy mapId); repeat split.
  - intros A. rewrite A. simpl negb. cbv iota.
    destruct (List.length (colorSelection p) =? 0)%nat.
    + unfold displayMessage. cbn [messages].
      rewrite skipn_app, skipn_all, Nat.sub_diag. simpl.
      intros [H|[]]. discriminate H.
    + unfold set_url. cbn [messages]. rewrite skipn_all. intros [].
Qed.

Lemma C5_witness :
  let p := set_pathwayInput "map123" initial in
  keggUrlInput (updateKEGGUrl p) = "" /\
  messages (updateKEGGUrl p)
  = [("Invalid pathway ID. Must be in format map00000", error)].
Proof.
  pose proof (proj1 (proj2 (C5_pathway_id_validation
                              (set_pathwayInput "map123" initial)))
                eq_refl) as (U & _ & _ & _ & _ & _ & M).
  split; [exact U | exact M].
Defined.

(** Where the claim fails: an empty pathway field is rejected without any
    error being displayed, and a field with surrounding blanks is accepted
    although its text is not in the grammar. *)
Lemma C5_counterexample :
  test_map 5 (trim (pathwayInput initial)) = false /\
  messages (updateKEGGUrl initial) = [] /\
  keggUrlInput
    (run [EGeneClick "K00001"; ETypePathway " map000109"] initial)
  = "https://www.kegg.jp/kegg-bin/show_pathway?map00010/K00001%09%23ff0000,%23ffffff/default%3d%23FFFFFF" /\
  keggLink_hidden
    (run [EGeneClick "K00001"; ETypePathway " map000109"] initial) = false /\
  pathwayInput (run [EGeneClick "K00001"; ETypePathway " map000109"] initial)
  = " map00010" /\
  ~ Grammar.map_id " map00010".
Proof.
  repeat split; try (vm_compute; reflexivity).
  intros (d1 & d2 & d3 & d4 & d5 & _ & E). discriminate E.
Qed.

(** ** The selection *)
















(** ** Callbacks that may throw *)

Lemma exn_unique (e : exn) : e = TypeError.
Proof. now destruct e. Qed.

Lemma bind_Ok {A B : Type} (m : outcome A) (f : A -> outcome B) (b : B) :
  bind m f = Ok b -> exists a, m = Ok a /\ f a = Ok b.
Proof. destruct m as [a|e]; simpl; [eauto | discriminate]. Qed.

Ltac bind_inv H :=
  let x := fresh "x" in
  let E := fresh "E" in
  apply bind_Ok in H as (x & E & H).

Section Loops.

Context {A B : Type}.

Lemma appendM_cons_Ok (f : A -> outcome (list B)) (x : A) (l : list A)
      (r : list B) :
  appendM f (x :: l) = Ok r ->
  exists ys r', f x = Ok ys /\ appendM f l = Ok r' /\ r = (ys ++ r')%list.
Proof.
  simpl. intros H. bind_inv H. bind_inv H. injection H as <-. eauto.
Qed.

Lemma appendM_Forall (P : B -> Prop) (f : A -> outcome (list B))
      (l : list A) (r : list B) :
  appendM f l = Ok r ->
  (forall x ys, In x l -> f x = Ok ys -> Forall P ys) ->
  Forall P r.
Proof.
  revert r. induction l as [|x l IH]; intros r H Hf.
  - injection H as <-. constructor.
  - apply appendM_cons_Ok in H as (ys & r' & Ex & El & ->).
    apply Forall_app. split.
    + apply (Hf x); [now left | exact Ex].
    + apply IH; [exact El|]. intros y zs I. apply Hf. now right.
Qed.

Lemma appendM_incl (f : A -> outcome (list B)) (l : list A) (r : list B)
      (x : A) :
  appendM f l = Ok r -> In x l -> exists ys, f x = Ok ys /\ incl ys r.
Proof.
  revert r. induction l as [|y l IH]; intros r H I; [destruct I|].
  apply appendM_cons_Ok in H as (ys & r' & Ex & El & ->).
  destruct I as [->|I].
  - exists ys. split; [exact Ex|]. now apply incl_appl, incl_refl.
  - destruct (IH r' El I) as (zs & Ez & Iz).
    exists zs. split; [exact Ez|]. now apply incl_appr.
Qed.

Lemma appendM_throws (f : A -> outcome (list B)) (l : list A) (x : A) :
  In x l -> f x = Throw TypeError -> appendM f l = Throw TypeError.
Proof.
  intros I T. induction l as [|y l IH]; [destruct I|].
  simpl. destruct I as [->|I].
  - now rewrite T.
  - destruct (f y) as [ys|e]; simpl; [|now rewrite (exn_unique e)].
    now rewrite (IH I).
Qed.

Lemma appendM_total (f : A -> outcome (list B)) (l : list A) :
  (forall x, In x l -> exists ys, f x = Ok ys) -> exists r, appendM f l = Ok r.
Proof.
  induction l as [|x l IH]; intros H; [now exists []|].
  destruct (H x (or_introl eq_refl)) as (ys & Ex).
  destruct IH as (r & Er); [intros y I; apply H; now right|].
  exists (ys ++ r)%list. simpl. now rewrite Ex, Er.
Qed.

Lemma filterM_Ok (p : A -> outcome bool) (l r : list A) :
  filterM p l = Ok r ->
  (forall x, In x l -> exists b, p x = Ok b) /\
  (forall x, In x r <-> In x l /\ p x = Ok true).
Proof.
  revert r. induction l as [|y l IH]; intros r H.
  - injection H as <-. split; [intros x []|]. intros x. simpl. tauto.
  - simpl in H. bind_inv H. bind_inv H. injection H as <-.
    destruct (IH _ E0) as [T M]. split.
    + intros z [<-|I]; [eauto | now apply T].
    + intros z. destruct x.
      * simpl. rewrite M. split.
        -- intros [<-|[I Ez]]; [tauto | tauto].
        -- intros [[<-|I] Ez]; [now left | right; tauto].
      * rewrite M. simpl. split; [tauto|].
        intros [[<-|I] Ez]; [congruence | tauto].
Qed.

Lemma filterM_throws (p : A -> outcome bool) (l : list A) (x : A) :
  In x l -> p x = Throw TypeError -> filterM p l = Throw TypeError.
Proof.
  intros I T. induction l as [|y l IH]; [destruct I|].
  simpl. destruct I as [->|I].
  - now rewrite T.
  - destruct (p y) as [b|e]; simpl; [|now rewrite (exn_unique e)].
    now rewrite (IH I).
Qed.

Lemma filterM_total (p : A -> outcome bool) (l : list A) :
  (forall x, In x l -> exists b, p x = Ok b) -> exists r, filterM p l = Ok r.
Proof.
  induction l as [|x l IH]; intros H; [now exists []|].
  destruct (H x (or_introl eq_refl)) as (b & Ex).
  destruct IH as (r & Er); [intros y I; apply H; now right|].
  simpl. rewrite Ex, Er. simpl. eauto.
Qed.

End Loops.

(** Induction on a document, with the hypothesis for the values of an
    object. *)
Lemma json_object_ind (P : json -> Prop) :
  P JNull ->
  (forall b, P (JBool b)) ->
  (forall x, P (JNum x)) ->
  (forall s, P (JStr s)) ->
  (forall l, P (JArr l)) ->
  (forall m, (forall k v, In (k, v) m -> P v) -> P (JObj m)) ->
  forall v, P v.
Proof.
  intros Hnull Hbool Hnum Hstr Harr Hobj.
  fix IH 1. intros [ |b|x|s|l|m].
  - exact Hnull.
  - apply Hbool.
  - apply Hnum.
  - apply Hstr.
  - apply Harr.
  - apply Hobj. induction m as [|[k0 v0] m IHm]; intros k v I.
    + destruct I.
    + destruct I as [E|I].
      * injection E as _ <-. apply IH.
      * exact (IHm k v I).
Qed.

(** ** The tree builder *)

(** The object branch, in the words of the script: filter the entries,
    prune when none is left, otherwise collect the nodes of the kept
    entries. *)
Lemma createNode_object (a : index) (key : string)
      (m : list (string * json)) (level : nat) :
  createNode a key (JObj m) level
  = if is_empty (trim key) then Ok None
    else
      let entries := filter entry_kept m in
      if (List.length entries =? 0)%nat then Ok None
      else
        children <- appendM (node_of_entry a (level + 1)) entries ;;
        Ok (Some (CategoryNode (level * 20) (trim key) children)).
Proof.
  cbn [createNode]. destruct (is_empty (trim key)); [reflexivity|].
  cbv zeta. destruct (List.length (filter entry_kept m) =? 0)%nat;
    [reflexivity|].
  f_equal.
  induction m as [|[k v] m IH]; [reflexivity|].
  cbn [filter]. destruct (entry_kept (k, v)); [|exact IH].
  cbn [appendM]. unfold node_of_entry at 1. cbn [fst snd].
  rewrite <- IH.
  destruct (createNode a k v (level + 1)) as [n|e]; reflexivity.
Qed.

Lemma createNode_array (a : index) (key : string) (l : list json)
      (level : nat) :
  createNode a key (JArr l) level
  = if is_empty (trim key) then Ok None
    else
      filteredValue <- filterM entry_ok l ;;
      if (List.length filteredValue =? 0)%nat then Ok None
      else
        genes <- appendM (genes_of_entry a level) filteredValue ;;
        Ok (Some (PathwayNode
                    (level * 20) (trim key)
                    match match_PATH (trim key) with
                    | Some ko =>
                        Some ("map" ++ replace_first "ko" "" ko, filteredValue)
                    | None => None
                    end genes)).
Proof. reflexivity. Qed.

Lemma createNode_empty_key (a : index) (key : string) (value : json)
      (level : nat) :
  is_empty (trim key) = true -> createNode a key value level = Ok None.
Proof. intros E. destruct value; cbn [createNode]; now rewrite E. Qed.

Lemma shown_trim (s : string) : is_empty (trim s) = false -> shown (trim s) = true.
Proof.
  intros E. unfold shown. rewrite E, trim_idempotent. simpl.
  apply String.eqb_refl.
Qed.

Lemma someM_true {A : Type} (p : A -> outcome bool) (l : list A) :
  someM p l = Ok true -> exists x, In x l /\ p x = Ok true.
Proof.
  induction l as [|y l IH]; simpl; [discriminate|].
  intros H. bind_inv H. destruct x.
  - exists y. split; [now left | exact E].
  - destruct (IH H) as (z & I & Ez). exists z. split; [now right | exact Ez].
Qed.

Lemma pair_ok_true (kv : string * json) :
  pair_ok kv = Ok true -> good_pair kv = true.
Proof.
  destruct kv as [k v]. unfold pair_ok, good_pair. simpl.
  destruct (JSString.truthy (trim k)); [|discriminate].
  destruct v; simpl; try discriminate. now intros [= ->].
Qed.

Lemma entry_ok_true (entry : json) :
  entry_ok entry = Ok true ->
  exists es kv, Object_entries entry = Ok es /\ In kv es /\ good_pair kv = true.
Proof.
  unfold entry_ok. intros H. bind_inv H.
  destruct (0 <? List.length x)%nat; [|discriminate].
  apply someM_true in H as (kv & I & G).
  exists x, kv. repeat split; [exact E | exact I | now apply pair_ok_true].
Qed.

Lemma createGeneNode_Some (a : index) (k : string) (d : json) (level : nat)
      (g : GeneNode) :
  createGeneNode a k d level = Ok (Some g) ->
  shown (gene_description g) = true.
Proof.
  unfold createGeneNode. intros H. bind_inv H.
  destruct d; try discriminate E. injection E as <-.
  destruct (is_empty (trim s)) eqn:N; [discriminate|].
  bind_inv H. injection H as <-. simpl. now apply shown_trim.
Qed.

Lemma gene_of_pair_shown (a : index) (level : nat) (kv : string * json)
      (gs : list GeneNode) :
  gene_of_pair a level kv = Ok gs ->
  Forall (fun g => shown (gene_description g) = true) gs.
Proof.
  destruct kv as [k d]. unfold gene_of_pair. intros H. bind_inv H.
  destruct (is_empty x); [injection H as <-; constructor|].
  bind_inv H. injection H as <-.
  destruct x0 as [g|]; simpl; constructor; [|constructor].
  now apply createGeneNode_Some in E0.
Qed.

(** A pair that passes the filter always yields a gene node. *)
Lemma gene_of_good_pair (a : index) (level : nat) (kv : string * json)
      (gs : list GeneNode) :
  good_pair kv = true -> gene_of_pair a level kv = Ok gs -> gs <> [].
Proof.
  destruct kv as [k d]. unfold good_pair, gene_of_pair. simpl.
  intros G H. apply andb_prop in G as [_ G].
  destruct d; try discriminate G. simpl in H.
  unfold JSString.truthy in G. apply negb_true_iff in G.
  rewrite G in H. unfold createGeneNode in H. simpl in H. rewrite G in H.
  bind_inv H. bind_inv E. injection E as <-. injection H as <-.
  discriminate.
Qed.

Lemma genes_of_entry_shown (a : index) (level : nat) (entry : json)
      (gs : list GeneNode) :
  genes_of_entry a level entry = Ok gs ->
  Forall (fun g => shown (gene_description g) = true) gs.
Proof.
  unfold genes_of_entry. intros H. bind_inv H.
  apply (appendM_Forall _ _ _ _ H).
  intros kv ys _. apply gene_of_pair_shown.
Qed.

Lemma genes_of_kept_entry (a : index) (level : nat) (entry : json)
      (gs : list GeneNode) :
  entry_ok entry = Ok true -> genes_of_entry a level entry = Ok gs -> gs <> [].
Proof.
  intros K H. apply entry_ok_true in K as (es & kv & E & I & G).
  unfold genes_of_entry in H. rewrite E in H. simpl in H.
  destruct (appendM_incl _ _ _ _ H I) as (ys & Ey & Sub).
  apply (gene_of_good_pair _ _ _ _ G) in Ey.
  destruct ys as [|g ys]; [congruence|].
  intros ->. exact (Sub g (or_introl eq_refl)).
Qed.

Lemma createNode_leaf (a : index) (key : string) (value : json)
      (level : nat) :
  match value with
  | JBool _ | JNum _ | JStr _ =>
      createNode a key value level
      = if is_empty (trim key) then Ok None
        else if is_empty (trim (String_of value)) then Ok None
             else Ok (Some (LeafNode (level * 20) (trim key)
                                     (trim (String_of value))))
  | _ => True
  end.
Proof. destruct value; try exact I; reflexivity. Qed.

Lemma leaf_displayable (a : index) (key : string) (value : json)
      (level : nat) (n : TreeNode) :
  createNode a key value level
  = (if is_empty (trim key) then Ok None
     else if is_empty (trim (String_of value)) then Ok None
          else Ok (Some (LeafNode (level * 20) (trim key)
                                  (trim (String_of value))))) ->
  createNode a key value level = Ok (Some n) -> displayable n = true.
Proof.
  intros -> H.
  destruct (is_empty (trim key)) eqn:K; [discriminate|].
  destruct (is_empty (trim (String_of value))) eqn:V; [discriminate|].
  injection H as <-. cbn [displayable].
  now rewrite (shown_trim _ K), (shown_trim _ V).
Qed.

(** Every node [createNode] returns is displayable. *)
Lemma createNode_displayable (a : index) (value : json) :
  forall key level n,
    createNode a key value level = Ok (Some n) -> displayable n = true.
Proof.
  induction value as [ |b|x|s|l|m IH] using json_object_ind;
    intros key level n H.
  - cbn [createNode] in H. destruct (is_empty (trim key)); discriminate.
  - exact (leaf_displayable a key (JBool b) level n
             (createNode_leaf a key (JBool b) level) H).
  - exact (leaf_displayable a key (JNum x) level n
             (createNode_leaf a key (JNum x) level) H).
  - exact (leaf_displayable a key (JStr s) level n
             (createNode_leaf a key (JStr s) level) H).
  - rewrite createNode_array in H.
    destruct (is_empty (trim key)) eqn:K; [discriminate|].
    bind_inv H. rename x into fv.
    destruct fv as [|e fv]; [discriminate|].
    change (List.length (e :: fv) =? 0)%nat with false in H. cbv iota in H.
    bind_inv H. injection H as <-. rename x into genes.
    cbn [displayable]. rewrite (shown_trim _ K). cbn [andb].
    apply andb_true_intro. split.
    + destruct (filterM_Ok _ _ _ E) as [_ M].
      destruct (proj1 (M e) (or_introl eq_refl)) as [_ Ke].
      destruct (appendM_incl _ _ _ e E0 (or_introl eq_refl)) as (ys & Ey & Sub).
      apply (genes_of_kept_entry _ _ _ _ Ke) in Ey.
      destruct genes as [|g genes]; [|reflexivity].
      destruct ys as [|y ys]; [congruence|].
      destruct (Sub y (or_introl eq_refl)).
    + apply forallb_forall. apply Forall_forall.
      apply (appendM_Forall _ _ _ _ E0).
      intros entry ys _. apply genes_of_entry_shown.
  - rewrite createNode_object in H.
    destruct (is_empty (trim key)) eqn:K; [discriminate|].
    cbv zeta in H.
    destruct (List.length (filter entry_kept m) =? 0)%nat; [discriminate|].
    bind_inv H. injection H as <-.
    cbn [displayable]. rewrite (shown_trim _ K). cbn [andb].
    apply forallb_forall. apply Forall_forall.
    apply (appendM_Forall _ _ _ _ E).
    intros [k v] ys I. apply filter_In in I as [I _].
    unfold node_of_entry. simpl. intros Hn. bind_inv Hn. injection Hn as <-.
    destruct x0 as [c|]; constructor; [|constructor].
    exact (IH k v I _ _ _ E0).
Qed.

(** A category whose entries all prune to [null] is emitted without
    children. *)
Lemma createNode_childless (a : index) (key : string)
      (m : list (string * json)) (level : nat) :
  is_empty (trim key) = false ->
  filter entry_kept m <> [] ->
  (forall k v, In (k, v) m -> createNode a k v (level + 1) = Ok None) ->
  createNode a key (JObj m) level
  = Ok (Some (CategoryNode (level * 20) (trim key) [])).
Proof.
  intros K NE Hc. rewrite createNode_object, K. cbv zeta.
  destruct (filter entry_kept m) as [|e es] eqn:F; [congruence|].
  change (List.length (e :: es) =? 0)%nat with false. cbv iota.
  assert (A : appendM (node_of_entry a (level + 1)) (e :: es) = Ok []).
  { rewrite <- F.
    assert (S : forall kv, In kv (filter entry_kept m) -> In kv m)
      by (intros kv I; now apply filter_In in I).
    generalize dependent (filter entry_kept m). intros l _ S.
    induction l as [|[k v] l IH]; [reflexivity|].
    simpl. unfold node_of_entry at 1. simpl.
    rewrite (Hc k v (S _ (or_introl eq_refl))). simpl.
    rewrite IH; [reflexivity|]. intros kv I. apply S. now right. }
  now rewrite A.
Qed.

(** C1, as amended.  Whenever the build returns, every emitted node is
    displayable: its label is non-empty and trimmed, the description of a gene
    node and the value of a leaf as well, and a pathway node has at least one
    gene node.  A Category node is pruned exactly when its key trims to
    empty or NONE OF ITS ENTRIES HAS A KEY WITH A NON-EMPTY TRIMMED FORM, a
    test made before the recursion; a Category whose entries all prune to
    [null] IS EMITTED WITH AN EMPTY CHILD SEQUENCE.  In particular the input
    [{"A": {"B": "   "}}] produces the forest of the single childless
    Category node [A]. *)
Theorem C1_emitted_nodes_displayable (abundanceData : index) :
  (forall data forest,
      renderJSON abundanceData data = Ok forest ->
      forallb displayable forest = true) /\
  (forall key m level,
      createNode abundanceData key (JObj m) level = Ok None
      <-> is_empty (trim key)
          || (List.length (filter entry_kept m) =? 0)%nat = true) /\
  (forall key m level,
      is_empty (trim key) = false ->
      filter entry_kept m <> [] ->
      (forall k v, In (k, v) m ->
                   createNode abundanceData k v (level + 1) = Ok None) ->
      createNode abundanceData key (JObj m) level
      = Ok (Some (CategoryNode (level * 20) (trim key) []))) /\
  renderJSON abundanceData (JObj [("A", JObj [("B", JStr "   ")])])
  = Ok [CategoryNode 0 "A" []].
Proof.
  split; [|split; [|split]].
  - intros data forest H. unfold renderJSON in H. bind_inv H.
    apply forallb_forall. apply Forall_forall.
    apply (appendM_Forall _ _ _ _ H).
    intros [k v] ys _. unfold node_of_entry. simpl. intros Hn.
    bind_inv Hn. injection Hn as <-.
    destruct x0 as [n|]; constructor; [|constructor].
    exact (createNode_displayable _ _ _ _ _ E0).
  - intros key m level. rewrite createNode_object. cbv zeta.
    destruct (is_empty (trim key)); simpl; [tauto|].
    destruct (List.length (filter entry_kept m) =? 0)%nat; [tauto|].
    split; [|discriminate].
    intros H. bind_inv H. discriminate.
  - intros key m level. apply createNode_childless.
  - reflexivity.
Qed.

Lemma C1_witness :
  forallb displayable
    [CategoryNode 0 "A"
       [PathwayNode 20 "Glycolysis [PATH:ko00010]"
          (Some ("map00010", [JObj [("K00844", JStr " hexokinase ")]]))
          [mkGene 40 "K00844" "#FFFFFF" "hexokinase" None];
        LeafNode 20 "note" "2.5"]] = true /\
  createNode [] "A" (JObj [("B", JStr "   "); (" ", JStr "x")]) 0
  = Ok (Some (CategoryNode 0 "A" [])).
Proof.
  split.
  - apply (proj1 (C1_emitted_nodes_displayable [])
             (JObj [("A", JObj [("Glycolysis [PATH:ko00010] ",
                                 JArr [JObj [("K00844", JStr " hexokinase ")]]);
                                ("note", JNum (Fin (5 # 2)));
                                ("empty", JStr "  ")])])).
    reflexivity.
  - apply (proj1 (proj2 (proj2 (C1_emitted_nodes_displayable [])))
             "A" [("B", JStr "   "); (" ", JStr "x")] 0%nat).
    + reflexivity.
    + discriminate.
    + intros k v [E|[E|[]]]; injection E as <- <-; reflexivity.
Defined.

(** Where the claim fails: the branch of [{"A": {"B": "   "}}] is not pruned
    down to the empty forest; the Category [A] stays, with no child. *)
Lemma C1_counterexample :
  createNode [] "B" (JStr "   ") 1 = Ok None /\
  renderJSON [] (JObj [("A", JObj [("B", JStr "   ")])])
  = Ok [CategoryNode 0 "A" []] /\
  renderJSON [] (JObj [("A", JObj [("B", JStr "   ")])]) <> Ok [].
Proof. repeat split. discriminate. Qed.

(** ** When the builder stops *)

Lemma truthy_not_empty (s : string) :
  JSString.truthy s = true <-> is_empty s = false.
Proof. unfold JSString.truthy. now rewrite negb_true_iff. Qed.

Lemma pair_ok_bad (kv : string * json) :
  bad_pair kv = true -> pair_ok kv = Throw TypeError.
Proof.
  destruct kv as [k v]. unfold bad_pair, not_string, pair_ok. simpl.
  intros H. apply andb_prop in H as [-> N].
  now destruct v.
Qed.

Lemma pair_ok_not_bad (kv : string * json) :
  bad_pair kv = false -> pair_ok kv = Ok (good_pair kv).
Proof.
  destruct kv as [k v]. unfold bad_pair, not_string, good_pair, pair_ok. simpl.
  destruct (JSString.truthy (trim k)); [|reflexivity].
  now destruct v.
Qed.

Lemma someM_no_bad (es : list (string * json)) :
  existsb bad_pair es = false -> someM pair_ok es = Ok (existsb good_pair es).
Proof.
  induction es as [|kv es IH]; [reflexivity|].
  simpl. intros H. apply orb_false_elim in H as [B Bs].
  rewrite (pair_ok_not_bad _ B). simpl.
  destruct (good_pair kv); [reflexivity | now apply IH].
Qed.

Lemma someM_bad (es : list (string * json)) :
  existsb bad_pair es = true ->
  someM pair_ok es = Throw TypeError \/ someM pair_ok es = Ok true.
Proof.
  induction es as [|kv es IH]; [discriminate|].
  simpl. destruct (bad_pair kv) eqn:B.
  - intros _. left. now rewrite (pair_ok_bad _ B).
  - simpl. intros Bs. rewrite (pair_ok_not_bad _ B). simpl.
    destruct (good_pair kv); [now right | now apply IH].
Qed.

Lemma entry_ok_entries (entry : json) (es : list (string * json)) :
  Object_entries entry = Ok es -> entry_ok entry = someM pair_ok es.
Proof.
  intros E. unfold entry_ok. rewrite E. simpl. now destruct es.
Qed.

Lemma gene_of_pair_not_string (a : index) (level : nat)
      (kv : string * json) :
  not_string kv = true -> gene_of_pair a level kv = Throw TypeError.
Proof. destruct kv as [k v]. unfold not_string. simpl. now destruct v. Qed.

Lemma scored_get (a : index) (k : string) :
  scored a k = true ->
  get a k = None \/ exists x, get a k = Some (ANum x).
Proof.
  unfold scored. destruct (get a k) as [[x|b| |]|]; try discriminate.
  - intros _. right. now exists x.
  - intros _. now left.
Qed.

Lemma gene_of_pair_string (a : index) (level : nat) (kv : string * json) :
  scored a (fst kv) = true -> not_string kv = false ->
  exists gs, gene_of_pair a level kv = Ok gs.
Proof.
  intros N S. destruct kv as [k v]. unfold not_string in S. simpl in S.
  destruct v; try discriminate S.
  unfold gene_of_pair, createGeneNode. simpl.
  destruct (is_empty (trim s)); [now exists []|].
  destruct (scored_get a k N) as [->|(x & ->)]; simpl; eauto.
Qed.

Lemma existsb_In {A : Type} (f : A -> bool) (l : list A) :
  existsb f l = false -> forall x, In x l -> f x = false.
Proof.
  intros H x I. destruct (f x) eqn:E; [|reflexivity].
  assert (T : existsb f l = true) by (apply existsb_exists; eauto).
  congruence.
Qed.

(** An entry on which the builder stops makes the filter throw, or passes
    the filter and makes the emission of its gene nodes throw. *)
Lemma entry_throws_true (a : index) (level : nat) (entry : json) :
  entry_throws entry = true ->
  entry_ok entry = Throw TypeError \/
  (entry_ok entry = Ok true /\ genes_of_entry a level entry = Throw TypeError).
Proof.
  unfold entry_throws. destruct (Object_entries entry) as [es|e] eqn:E.
  - rewrite (entry_ok_entries _ _ E). intros H.
    assert (K : someM pair_ok es = Throw TypeError \/ someM pair_ok es = Ok true).
    { destruct (existsb bad_pair es) eqn:B; [now apply someM_bad|].
      simpl in H. apply andb_prop in H as [G _].
      right. now rewrite (someM_no_bad _ B), G. }
    destruct K as [K|K]; [now left | right]. split; [exact K|].
    assert (S : existsb not_string es = true).
    { destruct (existsb bad_pair es) eqn:B.
      - apply existsb_exists in B as (kv & I & B). apply existsb_exists.
        exists kv. split; [exact I|]. unfold bad_pair in B.
        now apply andb_prop in B as [_ B].
      - simpl in H. now apply andb_prop in H as [_ H]. }
    apply existsb_exists in S as (kv & I & S).
    unfold genes_of_entry. rewrite E. simpl.
    apply (appendM_throws _ _ kv I). now apply gene_of_pair_not_string.
  - intros _. left. unfold entry_ok. rewrite E. simpl.
    now rewrite (exn_unique e).
Qed.

Lemma entry_throws_false (a : index) (level : nat) (entry : json) :
  entry_throws entry = false ->
  exists b, entry_ok entry = Ok b /\
            (b = true ->
             Forall (fun k => scored a k = true) (entry_keys entry) ->
             exists gs, genes_of_entry a level entry = Ok gs).
Proof.
  unfold entry_throws, entry_keys.
  destruct (Object_entries entry) as [es|e] eqn:E; [|discriminate].
  intros H. apply orb_false_elim in H as [B H].
  rewrite (entry_ok_entries _ _ E), (someM_no_bad _ B).
  exists (existsb good_pair es). split; [reflexivity|].
  intros G N. rewrite G in H. simpl in H.
  unfold genes_of_entry. rewrite E. simpl.
  apply appendM_total. intros kv I.
  apply gene_of_pair_string; [|now apply (existsb_In _ _ H)].
  rewrite Forall_forall in N. apply N. now apply in_map.
Qed.

Lemma array_throws (a : index) (key : string) (l : list json) (level : nat) :
  is_empty (trim key) = false ->
  existsb entry_throws l = true ->
  createNode a key (JArr l) level = Throw TypeError.
Proof.
  intros K H. rewrite createNode_array, K.
  apply existsb_exists in H as (e & I & T).
  destruct (filterM entry_ok l) as [fv|x] eqn:F;
    [|now rewrite (exn_unique x)].
  simpl.
  destruct (filterM_Ok _ _ _ F) as [Tot M].
  destruct (entry_throws_true a level e T) as [Th|[Ke G]].
  - destruct (Tot e I) as (b & Eb). congruence.
  - assert (Ie : In e fv) by (apply M; tauto).
    destruct fv as [|e0 fv]; [destruct Ie|].
    change (List.length (e0 :: fv) =? 0)%nat with false. cbv iota.
    now rewrite (appendM_throws _ _ e Ie G).
Qed.

Lemma array_returns (a : index) (key : string) (l : list json) (level : nat) :
  Forall (fun k => scored a k = true) (gene_keys (JArr l)) ->
  existsb entry_throws l = false ->
  exists r, createNode a key (JArr l) level = Ok r.
Proof.
  intros N H. rewrite createNode_array. cbn [gene_keys] in N.
  apply Forall_concat in N. rewrite Forall_map in N.
  rewrite Forall_forall in N.
  destruct (is_empty (trim key)); [eauto|].
  destruct (filterM_total entry_ok l) as (fv & F).
  { intros e I. destruct (entry_throws_false a level e) as (b & Eb & _);
      [now apply (existsb_In _ _ H) | eauto]. }
  rewrite F. simpl.
  destruct (List.length fv =? 0)%nat; [eauto|].
  destruct (appendM_total (genes_of_entry a level) fv) as (genes & G).
  { intros e I. apply (filterM_Ok _ _ _ F) in I as [I Ke].
    destruct (entry_throws_false a level e) as (b & Eb & Tot);
      [now apply (existsb_In _ _ H)|].
    apply Tot; [congruence | now apply N]. }
  rewrite G. simpl. eauto.
Qed.

Lemma gene_keys_object (m : list (string * json)) :
  gene_keys (JObj m) = List.concat (map (fun kv => gene_keys (snd kv)) m).
Proof.
  induction m as [|[k v] m IH]; [reflexivity|].
  cbn [map List.concat snd]. rewrite <- IH. reflexivity.
Qed.

Lemma node_throws_object (m : list (string * json)) :
  node_throws (JObj m)
  = existsb (fun kv => entry_kept kv && node_throws (snd kv)) m.
Proof.
  induction m as [|[k v] m IH]; [reflexivity|].
  cbn [existsb]. rewrite <- IH. reflexivity.
Qed.

Lemma node_throws_true (a : index) (value : json) :
  node_throws value = true ->
  forall key level,
    is_empty (trim key) = false ->
    createNode a key value level = Throw TypeError.
Proof.
  induction value as [ |b|x|s|l|m IH] using json_object_ind;
    intros T key level K; try discriminate T.
  - cbn [createNode]. now rewrite K.
  - now apply array_throws.
  - rewrite node_throws_object in T.
    apply existsb_exists in T as ([k v] & I & T).
    apply andb_prop in T as [Kk Tv]. simpl in Tv.
    rewrite createNode_object, K. cbv zeta.
    assert (If : In (k, v) (filter entry_kept m))
      by (apply filter_In; split; assumption).
    destruct (filter entry_kept m) as [|e es] eqn:F; [destruct If|].
    change (List.length (e :: es) =? 0)%nat with false. cbv iota.
    rewrite (appendM_throws _ _ (k, v) If); [reflexivity|].
    unfold node_of_entry. simpl.
    rewrite (IH k v I Tv k (level + 1)%nat); [reflexivity|].
    now apply truthy_not_empty.
Qed.

Lemma node_throws_false (a : index) (value : json) :
  Forall (fun k => scored a k = true) (gene_keys value) ->
  node_throws value = false ->
  forall key level, exists r, createNode a key value level = Ok r.
Proof.
  induction value as [ |b|x|s|l|m IH] using json_object_ind;
    intros N T key level; try discriminate T.
  - rewrite (createNode_leaf a key (JBool b) level).
    destruct (is_empty (trim key)); [eauto|].
    destruct (is_empty (trim (String_of (JBool b)))); eauto.
  - rewrite (createNode_leaf a key (JNum x) level).
    destruct (is_empty (trim key)); [eauto|].
    destruct (is_empty (trim (String_of (JNum x)))); eauto.
  - rewrite (createNode_leaf a key (JStr s) level).
    destruct (is_empty (trim key)); [eauto|].
    destruct (is_empty (trim (String_of (JStr s)))); eauto.
  - now apply array_returns.
  - rewrite node_throws_object in T. rewrite gene_keys_object in N.
    apply Forall_concat in N. rewrite Forall_map in N.
    rewrite Forall_forall in N.
    rewrite createNode_object. cbv zeta.
    destruct (is_empty (trim key)); [eauto|].
    destruct (List.length (filter entry_kept m) =? 0)%nat; [eauto|].
    destruct (appendM_total (node_of_entry a (level + 1)) (filter entry_kept m))
      as (children & C).
    { intros [k v] I. apply filter_In in I as [I Kk].
      assert (Tv : node_throws v = false).
      { apply (existsb_In _ _ T) in I. rewrite Kk in I. exact I. }
      destruct (IH k v I (N (k, v) I) Tv k (level + 1)%nat) as (r & R).
      unfold node_of_entry. simpl. rewrite R. simpl. eauto. }
    rewrite C. simpl. eauto.
Qed.

Lemma top_kept_key (kv : string * json) :
  top_kept kv = true -> is_empty (trim (fst kv)) = false.
Proof.
  unfold top_kept. intros H. apply andb_prop in H as [_ H].
  now apply truthy_not_empty.
Qed.

Lemma doc_throws_true (a : index) (data : json) :
  doc_throws data = true -> renderJSON a data = Throw TypeError.
Proof.
  unfold doc_throws, renderJSON.
  destruct (Object_entries data) as [es|e]; [|now rewrite (exn_unique e)].
  simpl. intros H. apply existsb_exists in H as (kv & I & H).
  apply andb_prop in H as [K T].
  apply (appendM_throws _ _ kv).
  - apply filter_In. now split.
  - unfold node_of_entry.
    rewrite (node_throws_true a _ T); [reflexivity|]. now apply top_kept_key.
Qed.

Lemma doc_throws_false (a : index) (data : json) :
  Forall (fun k => scored a k = true) (doc_gene_keys data) ->
  doc_throws data = false ->
  exists forest, renderJSON a data = Ok forest.
Proof.
  unfold doc_throws, doc_gene_keys, renderJSON.
  destruct (Object_entries data) as [es|e]; [|discriminate].
  intros N. apply Forall_concat in N. rewrite Forall_map in N.
  rewrite Forall_forall in N.
  simpl. intros H. apply appendM_total.
  intros kv I. apply filter_In in I as [I K].
  assert (T := existsb_In _ _ H _ I). cbv beta in T. rewrite K in T.
  simpl in T.
  destruct (node_throws_false a (snd kv) (N kv I) T (fst kv) 0%nat) as (r & R).
  unfold node_of_entry. rewrite R. simpl. eauto.
Qed.

(** C10, as amended.  [.trim()] is called directly on the values of the
    gene-entry mappings, in the entry filter and in the emission of the gene
    nodes.  A visited array-valued node makes the build throw a [TypeError]
    when one of its entries has a value that is not a string UNDER A KEY
    WHOSE TRIMMED FORM IS NON-EMPTY (or is [null], or has such a value next to
    a pair that passes the filter).  WHEN THE ABUNDANCE OBJECT HOLDS A NUMBER
    OR NOTHING UNDER EVERY KEY OF THE GENE-ENTRY MAPPINGS, the build returns a
    tree on every other document: a value that is not a string UNDER A KEY
    THAT TRIMS TO EMPTY, in an entry without a passing pair, is never
    reached, and [{"A": [{" ": 5}]}] builds the empty forest.  A key under
    which the abundance object holds something else, such as [constructor],
    which every object inherits, stops the build as well, strings or not:
    [{"A": [{"constructor": "d"}]}] throws. *)
Theorem C10_build_throws_exactly (abundanceData : index) :
  (forall key l level entry es,
      is_empty (trim key) = false ->
      In entry l -> Object_entries entry = Ok es ->
      existsb bad_pair es = true ->
      createNode abundanceData key (JArr l) level = Throw TypeError) /\
  (forall data,
      doc_throws data = true ->
      renderJSON abundanceData data = Throw TypeError) /\
  (forall data,
      Forall (fun k => scored abundanceData k = true) (doc_gene_keys data) ->
      doc_throws data = false ->
      exists forest, renderJSON abundanceData data = Ok forest) /\
  renderJSON abundanceData (JObj [("A", JArr [JObj [(" ", JNum (of_Z 5))]])])
  = Ok [] /\
  (own abundanceData "constructor" = None ->
   renderJSON abundanceData
     (JObj [("A", JArr [JObj [("constructor", JStr "d")]])])
   = Throw TypeError).
Proof.
  split; [|split; [|split; [|split]]].
  - intros key l level entry es K I E B.
    apply array_throws; [exact K|].
    apply existsb_exists. exists entry. split; [exact I|].
    unfold entry_throws. now rewrite E, B.
  - intros data. apply doc_throws_true.
  - intros data N. now apply doc_throws_false.
  - reflexivity.
  - intros O.
    assert (G : get abundanceData "constructor" = Some AObject)
      by now apply get_inherited.
    cbn -[get getHeatmapColor]. unfold node_of_entry. cbn [fst snd].
    rewrite createNode_array. cbn -[get getHeatmapColor].
    unfold genes_of_entry, gene_of_pair, createGeneNode.
    cbn -[get getHeatmapColor]. rewrite G. reflexivity.
Qed.

Lemma C10_witness :
  createNode [] "A" (JArr [JObj [("K00001", JStr "gene"); ("K00002", JNum (of_Z 5))]]) 0
  = Throw TypeError /\
  renderJSON [] (JObj [("A", JArr [JObj [("K00002", JNum (of_Z 5))]])])
  = Throw TypeError /\
  (exists forest,
    renderJSON (loadJSON [("K00001", ANum (of_Z 1))])
      (JObj [("A", JArr [JObj [("K00001", JStr "gene")];
                         JObj [(" ", JNum (of_Z 5)); ("K00002", JStr " ")]])])
    = Ok forest) /\
  renderJSON (loadJSON [("K00001", ANum (of_Z 1))])
    (JObj [("A", JArr [JObj [("constructor", JStr "d")]])])
  = Throw TypeError.
Proof.
  split; [|split; [|split]].
  - apply (proj1 (C10_build_throws_exactly [])
             "A" _ 0%nat
             (JObj [("K00001", JStr "gene"); ("K00002", JNum (of_Z 5))])
             [("K00001", JStr "gene"); ("K00002", JNum (of_Z 5))]).
    + reflexivity.
    + left. reflexivity.
    + reflexivity.
    + reflexivity.
  - apply (proj1 (proj2 (C10_build_throws_exactly []))). reflexivity.
  - apply (proj1 (proj2 (proj2 (C10_build_throws_exactly
                                 (loadJSON [("K00001", ANum (of_Z 1))]))))).
    + repeat constructor.
    + reflexivity.
  - apply (proj2 (proj2 (proj2 (proj2 (C10_build_throws_exactly
                                 (loadJSON [("K00001", ANum (of_Z 1))])))))).
    reflexivity.
Defined.

(** Where the claim fails: an array-valued node with the entry [{" ": 5}],
    whose value is a number, builds without any throw. *)
Lemma C10_counterexample :
  is_string (JNum (of_Z 5)) = false /\
  createNode [] "A" (JArr [JObj [(" ", JNum (of_Z 5))]]) 0 = Ok None /\
  renderJSON [] (JObj [("A", JArr [JObj [(" ", JNum (of_Z 5))]])]) = Ok [] /\
  renderJSON [] (JObj [("A", JArr [JObj [("K00001", JStr "gene")];
                                   JObj [(" ", JNum (of_Z 5))]])])
  = Ok [PathwayNode 0 "A" None [mkGene 20 "K00001" "#FFFFFF" "gene" None]].
Proof. repeat split. Qed.

(* ================================================================== *)
(** * Further properties of the script *)

(** ** The gradient of [getHeatmapColor] *)

Section GradientShape.

Local Open Scope Q_scope.

(** On a loaded document with finite scores whose range [_max - _min] is
    finite and not zero, an identifier with a non-zero score gets a colour
    [#RR00BB]: green is 0, red and blue lie between 0 and 255. *)
Theorem gradient_channels (kegg_categories : index) (qs : list Q)
        (k : string) (q lo hi d : Q) :
  let a := loadJSON kegg_categories in
  numbers kegg_categories = map Fin qs ->
  get a k = Some (ANum (Fin q)) -> ~ q == 0 ->
  get a "_min" = Some (ANum (Fin lo)) ->
  get a "_max" = Some (ANum (Fin hi)) ->
  sub (Fin hi) (Fin lo) = Fin d -> ~ d == 0 ->
  exists r b,
    channels (getHeatmapColor a k) = Some (r, 0%Z, b) /\
    (0 <= r <= 255)%Z /\ (0 <= b <= 255)%Z.
Proof.
  intros a F G NZ Glo Ghi Hd Nd.
  destruct (loadJSON_bounds kegg_categories qs k q F G)
    as (lo' & hi' & Glo' & Ghi' & B).
  fold a in Glo', Ghi'.
  rewrite Glo in Glo'. injection Glo' as <-.
  rewrite Ghi in Ghi'. injection Ghi' as <-.
  destruct (getHeatmapColor_levels a k k q q lo hi d G G Glo Ghi
              (proj1 B) (Qle_refl q) (proj2 B) Hd Nd NZ NZ)
    as (r1 & b1 & r2 & b2 & C1 & C2 & Hr & Hr' & Hb & Hb').
  exists r1, b1. split; [exact C1|].
  rewrite C1 in C2. injection C2 as <- <-. lia.
Qed.

Lemma gradient_channels_witness :
  exists r b,
    channels (getHeatmapColor
                (loadJSON [("K00001", ANum (Fin (1 # 4)));
                           ("K00002", ANum (Fin (3 # 4)));
                           ("K00003", ANum (Fin (1 # 2)))]) "K00003")
    = Some (r, 0%Z, b) /\
    (0 <= r <= 255)%Z /\ (0 <= b <= 255)%Z.
Proof.
  apply (gradient_channels
           [("K00001", ANum (Fin (1 # 4))); ("K00002", ANum (Fin (3 # 4)));
            ("K00003", ANum (Fin (1 # 2)))]
           [1 # 4; 3 # 4; 1 # 2] "K00003" (1 # 2) (1 # 4) (3 # 4) (1 # 2)).
  - reflexivity.
  - reflexivity.
  - intros E. discriminate E.
  - reflexivity.
  - reflexivity.
  - vm_compute. reflexivity.
  - intros E. discriminate E.
Defined.

(** On a loaded document with finite scores whose range [_max - _min] is
    finite and not zero, a non-zero largest score is pure red and a non-zero
    smallest score pure blue. *)
Theorem gradient_endpoints (kegg_categories : index) (qs : list Q)
        (k : string) (q lo hi d : Q) :
  let a := loadJSON kegg_categories in
  numbers kegg_categories = map Fin qs ->
  get a k = Some (ANum (Fin q)) -> ~ q == 0 ->
  get a "_min" = Some (ANum (Fin lo)) ->
  get a "_max" = Some (ANum (Fin hi)) ->
  sub (Fin hi) (Fin lo) = Fin d -> ~ d == 0 ->
  ((forall x, In x qs -> x <= q) -> getHeatmapColor a k = "#FF0000") /\
  ((forall x, In x qs -> q <= x) -> getHeatmapColor a k = "#0000FF").
Proof.
  intros a F G NZ Glo Ghi Hd Nd.
  destruct (loadJSON_bounds kegg_categories qs k q F G)
    as (lo' & hi' & Glo' & Ghi' & B).
  fold a in Glo', Ghi'.
  rewrite Glo in Glo'. injection Glo' as <-.
  rewrite Ghi in Ghi'. injection Ghi' as <-.
  destruct (loadJSON_bounds_attained kegg_categories qs lo hi F Glo Ghi)
    as [Ilo Ihi].
  destruct (getHeatmapColor_ends a k q lo hi d G Glo Ghi Hd Nd NZ)
    as [Top Bot].
  split.
  - intros M. apply Top. specialize (M hi Ihi). lra.
  - intros M. apply Bot. specialize (M lo Ilo). lra.
Qed.

Lemma gradient_endpoints_witness :
  getHeatmapColor
    (loadJSON [("K00001", ANum (Fin (1 # 4))); ("K00002", ANum (Fin (3 # 4)))])
    "K00002" = "#FF0000" /\
  getHeatmapColor
    (loadJSON [("K00001", ANum (Fin (1 # 4))); ("K00002", ANum (Fin (3 # 4)))])
    "K00001" = "#0000FF".
Proof.
  split.
  - refine (proj1 (gradient_endpoints
                     [("K00001", ANum (Fin (1 # 4)));
                      ("K00002", ANum (Fin (3 # 4)))]
                     [1 # 4; 3 # 4] "K00002" (3 # 4) (1 # 4) (3 # 4) (1 # 2)
                     _ _ _ _ _ _ _) _).
    + reflexivity.
    + reflexivity.
    + intros E. discriminate E.
    + reflexivity.
    + reflexivity.
    + vm_compute. reflexivity.
    + intros E. discriminate E.
    + intros x [<-|[<-|[]]]; unfold Qle; simpl; lia.
  - refine (proj2 (gradient_endpoints
                     [("K00001", ANum (Fin (1 # 4)));
                      ("K00002", ANum (Fin (3 # 4)))]
                     [1 # 4; 3 # 4] "K00001" (1 # 4) (1 # 4) (3 # 4) (1 # 2)
                     _ _ _ _ _ _ _) _).
    + reflexivity.
    + reflexivity.
    + intros E. discriminate E.
    + reflexivity.
    + reflexivity.
    + vm_compute. reflexivity.
    + intros E. discriminate E.
    + intros x [<-|[<-|[]]]; unfold Qle; simpl; lia.
Defined.

(** On a loaded document whose finite scores are all equal, every
    identifier with a non-zero score, the keys [_max] and [_min] included,
    gets the string [#NAN00NAN]. *)
Theorem equal_scores_yield_nan (kegg_categories : index) (qs : list Q)
        (k : string) (q : Q) :
  let a := loadJSON kegg_categories in
  numbers kegg_categories = map Fin qs ->
  (forall x y, In x qs -> In y qs -> x == y) ->
  get a k = Some (ANum (Fin q)) -> ~ q == 0 ->
  getHeatmapColor a k = "#NAN00NAN".
Proof.
  intros a F Same G NZ.
  destruct (loadJSON_bounds kegg_categories qs k q F G)
    as (lo & hi & Glo & Ghi & B).
  destruct (loadJSON_bounds_attained kegg_categories qs lo hi F Glo Ghi)
    as [Ilo Ihi].
  assert (E : hi == lo) by now apply Same.
  apply (getHeatmapColor_equal_bounds a k q lo hi G Glo Ghi); [lra | exact E | exact NZ].
Qed.

Lemma equal_scores_yield_nan_witness :
  getHeatmapColor
    (loadJSON [("K00001", ANum (Fin (1 # 2))); ("K00002", ANum (Fin (2 # 4)))])
    "K00002" = "#NAN00NAN".
Proof.
  apply (equal_scores_yield_nan
           [("K00001", ANum (Fin (1 # 2))); ("K00002", ANum (Fin (2 # 4)))]
           [1 # 2; 2 # 4] "K00002" (2 # 4)).
  - reflexivity.
  - intros x y [<-|[<-|[]]] [<-|[<-|[]]]; reflexivity.
  - reflexivity.
  - intros E. discriminate E.
Defined.

(** Among the non-zero scores of a loaded document with finite scores
    whose range [_max - _min] is finite and not zero, the colour is
    monotonic: a larger score has at least as much red and at most as much
    blue. *)
Theorem gradient_monotone (kegg_categories : index) (qs : list Q)
        (k1 k2 : string) (q1 q2 lo hi d : Q) :
  let a := loadJSON kegg_categories in
  numbers kegg_categories = map Fin qs ->
  get a k1 = Some (ANum (Fin q1)) ->
  get a k2 = Some (ANum (Fin q2)) ->
  q1 < q2 -> ~ q1 == 0 -> ~ q2 == 0 ->
  get a "_min" = Some (ANum (Fin lo)) ->
  get a "_max" = Some (ANum (Fin hi)) ->
  sub (Fin hi) (Fin lo) = Fin d -> ~ d == 0 ->
  exists r1 b1 r2 b2,
    channels (getHeatmapColor a k1) = Some (r1, 0%Z, b1) /\
    channels (getHeatmapColor a k2) = Some (r2, 0%Z, b2) /\
    (r1 <= r2)%Z /\ (b2 <= b1)%Z.
Proof.
  intros a F G1 G2 Lt N1 N2 Glo Ghi Hd Nd.
  destruct (loadJSON_bounds kegg_categories qs k1 q1 F G1)
    as (lo1 & hi1 & Glo1 & Ghi1 & B1).
  destruct (loadJSON_bounds kegg_categories qs k2 q2 F G2)
    as (lo2 & hi2 & Glo2 & Ghi2 & B2).
  fold a in Glo1, Ghi1, Glo2, Ghi2.
  rewrite Glo in Glo1, Glo2. injection Glo1 as <-. injection Glo2 as <-.
  rewrite Ghi in Ghi1, Ghi2. injection Ghi1 as <-. injection Ghi2 as <-.
  destruct (getHeatmapColor_levels a k1 k2 q1 q2 lo hi d G1 G2 Glo Ghi
              (proj1 B1) (Qlt_le_weak _ _ Lt) (proj2 B2) Hd Nd N1 N2)
    as (r1 & b1 & r2 & b2 & C1 & C2 & Hr & Hr' & Hb & Hb').
  exists r1, b1, r2, b2. repeat split; [exact C1 | exact C2 | lia | lia].
Qed.

Lemma gradient_monotone_witness :
  exists r1 b1 r2 b2,
    channels (getHeatmapColor
                (loadJSON [("K00001", ANum (Fin (1 # 4)));
                           ("K00002", ANum (Fin (3 # 4)))]) "K00001")
    = Some (r1, 0%Z, b1) /\
    channels (getHeatmapColor
                (loadJSON [("K00001", ANum (Fin (1 # 4)));
                           ("K00002", ANum (Fin (3 # 4)))]) "K00002")
    = Some (r2, 0%Z, b2) /\
    (r1 <= r2)%Z /\ (b2 <= b1)%Z.
Proof.
  apply (gradient_monotone
           [("K00001", ANum (Fin (1 # 4))); ("K00002", ANum (Fin (3 # 4)))]
           [1 # 4; 3 # 4] "K00001" "K00002" (1 # 4) (3 # 4)
           (1 # 4) (3 # 4) (1 # 2)).
  - reflexivity.
  - reflexivity.
  - reflexivity.
  - reflexivity.
  - intros E. discriminate E.
  - intros E. discriminate E.
  - reflexivity.
  - reflexivity.
  - vm_compute. reflexivity.
  - intros E. discriminate E.
Defined.

End GradientShape.

(** ** The sections and the order of the tree *)

(** A top-level entry whose key is on the list of the three sections, or
    trims to empty, is dropped without a look at its value: the document
    renders as if the entry were not there, even when the value is [null] or
    would make the builder throw. *)
Theorem dropped_sections_not_read (a : index) (m1 m2 : list (string * json))
        (key : string) (v : json) :
  includes denylist key = true \/ is_empty (trim key) = true ->
  renderJSON a (JObj (m1 ++ (key, v) :: m2)%list)
  = renderJSON a (JObj (m1 ++ m2)%list).
Proof.
  intros D. unfold renderJSON. cbn [Object_entries bind].
  rewrite !filter_app. cbn [filter].
  assert (K : top_kept (key, v) = false).
  { unfold top_kept. cbn [fst]. destruct D as [-> | E]; [reflexivity|].
    unfold JSString.truthy. rewrite E. apply andb_false_r. }
  now rewrite K.
Qed.

Lemma dropped_sections_not_read_witness :
  renderJSON [] (JObj [("09100 Metabolism", JObj [("note", JStr "x")]);
                       ("09180 Brite Hierarchies", JNull)])
  = renderJSON [] (JObj [("09100 Metabolism", JObj [("note", JStr "x")])]).
Proof.
  apply (dropped_sections_not_read
           [] [("09100 Metabolism", JObj [("note", JStr "x")])] []
           "09180 Brite Hierarchies" JNull).
  left. reflexivity.
Defined.

Lemma createNode_label (a : index) (key : string) (value : json)
      (level : nat) (n : TreeNode) :
  createNode a key value level = Ok (Some n) -> label_of n = trim key.
Proof.
  destruct value as [ |b|x|s|l|m].
  - cbn [createNode]. destruct (is_empty (trim key)); discriminate.
  - rewrite (createNode_leaf a key (JBool b) level).
    destruct (is_empty (trim key)); [discriminate|].
    destruct (is_empty _); [discriminate|]. now intros [= <-].
  - rewrite (createNode_leaf a key (JNum x) level).
    destruct (is_empty (trim key)); [discriminate|].
    destruct (is_empty _); [discriminate|]. now intros [= <-].
  - rewrite (createNode_leaf a key (JStr s) level).
    destruct (is_empty (trim key)); [discriminate|].
    destruct (is_empty _); [discriminate|]. now intros [= <-].
  - rewrite createNode_array.
    destruct (is_empty (trim key)); [discriminate|].
    intros H. bind_inv H.
    destruct (List.length x =? 0)%nat; [discriminate|].
    bind_inv H. now injection H as <-.
  - rewrite createNode_object.
    destruct (is_empty (trim key)); [discriminate|]. cbv zeta.
    destruct (List.length _ =? 0)%nat; [discriminate|].
    intros H. bind_inv H. now injection H as <-.
Qed.

Lemma nodes_in_entry_order (a : index) (level : nat)
      (l : list (string * json)) (r : list TreeNode) :
  appendM (node_of_entry a level) l = Ok r ->
  map label_of r
  = map (fun kv => trim (fst kv))
        (filter (fun kv => emits (createNode a (fst kv) (snd kv) level)) l).
Proof.
  revert r. induction l as [|kv l IH]; intros r H.
  - now injection H as <-.
  - apply appendM_cons_Ok in H as (ys & r' & Ey & El & ->).
    rewrite map_app, (IH _ El). cbn [filter].
    unfold node_of_entry in Ey. bind_inv Ey. injection Ey as <-.
    rewrite E. destruct x as [n|]; cbn [emits opt_list map app].
    + now rewrite (createNode_label _ _ _ _ _ E).
    + reflexivity.
Qed.

Lemma filter_twice {A : Type} (f g : A -> bool) (l : list A) :
  filter f (filter g l) = filter (fun x => g x && f x) l.
Proof.
  induction l as [|x l IH]; [reflexivity|].
  cbn [filter]. destruct (g x); cbn [filter andb]; [|exact IH].
  destruct (f x); now rewrite IH.
Qed.

(** The tree keeps the order of [Object.entries]: the labels of the
    top-level nodes are the trimmed keys of the entries that are kept and give
    a node, in the order of the list that [Object.entries] returns for the
    object (integer-like keys come first in that list, so it is not always
    the order of the document); the same holds for the children of every
    Category node. *)
Theorem labels_follow_key_order (a : index) :
  (forall m forest,
      renderJSON a (JObj m) = Ok forest ->
      map label_of forest
      = map (fun kv => trim (fst kv))
            (filter (fun kv => top_kept kv
                               && emits (createNode a (fst kv) (snd kv) 0)) m))
  /\
  (forall key m level margin label children,
      createNode a key (JObj m) level
      = Ok (Some (CategoryNode margin label children)) ->
      map label_of children
      = map (fun kv => trim (fst kv))
            (filter (fun kv => entry_kept kv
                               && emits (createNode a (fst kv) (snd kv)
                                                    (level + 1))) m)).
Proof.
  split.
  - intros m forest H. unfold renderJSON in H. cbn [Object_entries bind] in H.
    rewrite (nodes_in_entry_order _ _ _ _ H). now rewrite filter_twice.
  - intros key m level margin label children H.
    rewrite createNode_object in H.
    destruct (is_empty (trim key)); [discriminate|]. cbv zeta in H.
    destruct (List.length _ =? 0)%nat; [discriminate|].
    bind_inv H. injection H as _ _ <-.
    rewrite (nodes_in_entry_order _ _ _ _ E). now rewrite filter_twice.
Qed.

Lemma labels_follow_key_order_witness :
  map label_of
      [LeafNode 0 "b" "2"; CategoryNode 0 "a" [LeafNode 20 "z" "x"]]
  = ["b"; "a"].
Proof.
  refine (proj1 (labels_follow_key_order [])
            [(" b ", JNum (of_Z 2)); ("skip", JStr " ");
             ("09180 Brite Hierarchies", JStr "x");
             ("a", JObj [("z", JStr "x")])]
            [LeafNode 0 "b" "2"; CategoryNode 0 "a" [LeafNode 20 "z" "x"]]
            _).
  vm_compute. reflexivity.
Defined.

(** Indentation follows depth. *)
Lemma createNode_indented (a : index) (value : json) :
  forall key level n,
    createNode a key value level = Ok (Some n) -> indented level n = true.
Proof.
  induction value as [ |b|x|s|l|m IH] using json_object_ind;
    intros key level n H.
  - cbn [createNode] in H. destruct (is_empty (trim key)); discriminate.
  - rewrite (createNode_leaf a key (JBool b) level) in H.
    destruct (is_empty (trim key)); [discriminate|].
    destruct (is_empty _); [discriminate|]. injection H as <-.
    apply Nat.eqb_refl.
  - rewrite (createNode_leaf a key (JNum x) level) in H.
    destruct (is_empty (trim key)); [discriminate|].
    destruct (is_empty _); [discriminate|]. injection H as <-.
    apply Nat.eqb_refl.
  - rewrite (createNode_leaf a key (JStr s) level) in H.
    destruct (is_empty (trim key)); [discriminate|].
    destruct (is_empty _); [discriminate|]. injection H as <-.
    apply Nat.eqb_refl.
  - rewrite createNode_array in H.
    destruct (is_empty (trim key)); [discriminate|].
    bind_inv H. destruct (List.length x =? 0)%nat; [discriminate|].
    bind_inv H. injection H as <-.
    cbn [indented]. rewrite Nat.eqb_refl. cbn [andb].
    apply forallb_forall. apply Forall_forall.
    apply (appendM_Forall _ _ _ _ E0).
    intros entry ys _ Hy. unfold genes_of_entry in Hy. bind_inv Hy.
    apply (appendM_Forall _ _ _ _ Hy).
    intros [k d] gs _ Hg. unfold gene_of_pair in Hg. bind_inv Hg.
    destruct (is_empty x2); [injection Hg as <-; constructor|].
    bind_inv Hg. injection Hg as <-.
    destruct x3 as [g|]; constructor; [|constructor].
    unfold createGeneNode in E3. bind_inv E3.
    destruct (is_empty x3); [discriminate|].
    bind_inv E3. injection E3 as <-. cbn [gene_margin].
    rewrite Nat.add_1_r. apply Nat.eqb_refl.
  - rewrite createNode_object in H.
    destruct (is_empty (trim key)); [discriminate|]. cbv zeta in H.
    destruct (List.length _ =? 0)%nat; [discriminate|].
    bind_inv H. injection H as <-.
    cbn [indented]. rewrite Nat.eqb_refl. cbn [andb].
    apply forallb_forall. apply Forall_forall.
    apply (appendM_Forall _ _ _ _ E).
    intros [k v] ys I. apply filter_In in I as [I _].
    unfold node_of_entry. cbn [fst snd]. intros Hn.
    bind_inv Hn. injection Hn as <-.
    destruct x0 as [c|]; constructor; [|constructor].
    rewrite <- Nat.add_1_r. exact (IH k v I _ _ _ E0).
Qed.

(** In every forest the builder returns, a node at depth [d] is indented by
    [20 d] pixels and the gene nodes of a pathway node by [20 (d + 1)]. *)
Theorem forest_indented (a : index) (data : json) (forest : list TreeNode) :
  renderJSON a data = Ok forest -> forallb (indented 0) forest = true.
Proof.
  intros H. unfold renderJSON in H. bind_inv H.
  apply forallb_forall. apply Forall_forall.
  apply (appendM_Forall _ _ _ _ H).
  intros [k v] ys _. unfold node_of_entry. cbn [fst snd]. intros Hn.
  bind_inv Hn. injection Hn as <-.
  destruct x0 as [n|]; constructor; [|constructor].
  exact (createNode_indented _ _ _ _ _ E0).
Qed.

Lemma forest_indented_witness :
  forallb (indented 0)
    [CategoryNode 0 "A"
       [PathwayNode 20 "P" None [mkGene 40 "K00844" "#FFFFFF" "hexokinase" None];
        LeafNode 20 "note" "2.5"]] = true.
Proof.
  refine (forest_indented []
            (JObj [("A", JObj [("P", JArr [JObj [("K00844", JStr "hexokinase")]]);
                               ("note", JNum (Fin (5 # 2)))])])
            _ _).
  vm_compute. reflexivity.
Defined.

(** ** The pathway id of a label *)

Lemma take_digits_split (s d r : string) :
  take_digits s = (d, r) ->
  s = d ++ r /\ all_digits d = true.
Proof.
  revert d r. induction s as [|c s IH]; intros d r; simpl.
  - intros [= <- <-]. now split.
  - destruct (is_digit c) eqn:D.
    + destruct (take_digits s) as [d' r'] eqn:T. intros [= <- <-].
      destruct (IH d' r' eq_refl) as [-> A]. simpl. now rewrite D, A.
    + intros [= <- <-]. now split.
Qed.

Lemma take_digits_run (d r : string) :
  all_digits d = true ->
  match r with String c _ => is_digit c = false | EmptyString => True end ->
  take_digits (d ++ r) = (d, r).
Proof.
  intros A N. induction d as [|c d IH]; simpl.
  - destruct r as [|c r]; [reflexivity|]. simpl. now rewrite N.
  - simpl in A. apply andb_prop in A as [Dc A].
    now rewrite Dc, (IH A).
Qed.

Lemma match_PATH_here_sound (s c : string) :
  match_PATH_here s = Some c ->
  exists ds post,
    s = "[PATH:ko" ++ ds ++ "]" ++ post /\ c = "ko" ++ ds /\
    ds <> "" /\ all_digits ds = true.
Proof.
  unfold match_PATH_here.
  destruct (starts_with "[PATH:ko" s) eqn:P; [|discriminate].
  apply starts_with_split in P. cbn [String.length] in P.
  destruct (take_digits (drop 8 s)) as [d r] eqn:T.
  destruct (negb (is_empty d) && starts_with "]" r) eqn:C; [|discriminate].
  intros [= <-]. apply andb_prop in C as [N B].
  apply take_digits_split in T as [E A].
  apply starts_with_split in B. cbn [String.length] in B.
  exists d, (drop 1 r). repeat split.
  - rewrite P at 1. f_equal. rewrite E. f_equal. exact B.
  - intros ->. discriminate N.
  - exact A.
Qed.

(** The mapId of the pathway controls comes from the label: whenever
    [match_PATH] finds a match, the label contains [[PATH:ko], a non-empty
    run of digits and []], in this order, the capture is [ko] with these
    digits, and the mapId built from it is [map] with the same digits; it
    passes the test of [updateKEGGUrl] exactly when the digits are five. *)
Theorem pathway_id_from_label (label ko : string) :
  match_PATH label = Some ko ->
  exists pre ds post,
    label = pre ++ "[PATH:ko" ++ ds ++ "]" ++ post /\
    ko = "ko" ++ ds /\ ds <> "" /\ all_digits ds = true /\
    "map" ++ replace_first "ko" "" ko = "map" ++ ds /\
    (test_map 5 ("map" ++ replace_first "ko" "" ko) = true
     <-> String.length ds = 5%nat).
Proof.
  induction label as [|c label IH].
  - intros H. discriminate H.
  - cbn [match_PATH].
    destruct (match_PATH_here (String c label)) as [c0|] eqn:H.
    + intros [= ->].
      apply match_PATH_here_sound in H as (ds & post & E & -> & N & A).
      exists "", ds, post.
      assert (R : replace_first "ko" "" ("ko" ++ ds) = ds) by reflexivity.
      rewrite R. repeat split; try assumption.
      * unfold test_map. rewrite starts_with_append.
        change 3%nat with (String.length "map"). rewrite drop_append, A.
        cbn [andb]. intros T. apply andb_prop in T as [T1 T2].
        apply Nat.leb_le in T1, T2. lia.
      * intros L. unfold test_map. rewrite starts_with_append.
        change 3%nat with (String.length "map"). rewrite drop_append, A, L.
        reflexivity.
    + intros M. destruct (IH M) as (pre & ds & post & -> & rest).
      exists (String c pre), ds, post. split; [reflexivity | exact rest].
Qed.

Lemma pathway_id_from_label_witness :
  exists pre ds post,
    "Glycolysis [PATH:ko00010]" = pre ++ "[PATH:ko" ++ ds ++ "]" ++ post /\
    "ko00010" = "ko" ++ ds /\ ds <> "" /\ all_digits ds = true /\
    "map" ++ replace_first "ko" "" "ko00010" = "map" ++ ds /\
    (test_map 5 ("map" ++ replace_first "ko" "" "ko00010") = true
     <-> String.length ds = 5%nat).
Proof.
  exact (pathway_id_from_label "Glycolysis [PATH:ko00010]" "ko00010" eq_refl).
Defined.

Lemma match_PATH_first (s c : string) :
  match_PATH_here s = Some c -> match_PATH s = Some c.
Proof.
  destruct s as [|x s]; intros H; [discriminate H|].
  cbn [match_PATH]. now rewrite H.
Qed.

Lemma match_PATH_here_bracket (c : ascii) (s : string) :
  Ascii.eqb c "["%char = false -> match_PATH_here (String c s) = None.
Proof.
  intros N. unfold match_PATH_here. cbn [starts_with].
  rewrite Ascii.eqb_sym, N. reflexivity.
Qed.

(** A label whose first opening bracket starts [[PATH:ko], a non-empty run
    of digits and []] has these digits as pathway id, whatever follows. *)
Theorem pathway_id_found (pre ds post : string) :
  Grammar.forall_units (fun c => negb (Ascii.eqb c "["%char)) pre = true ->
  ds <> "" -> all_digits ds = true ->
  match_PATH (pre ++ "[PATH:ko" ++ ds ++ "]" ++ post) = Some ("ko" ++ ds).
Proof.
  intros P N A. induction pre as [|c pre IH].
  - cbn [append]. 
    assert (H : match_PATH_here ("[PATH:ko" ++ ds ++ "]" ++ post)
                = Some ("ko" ++ ds)).
    { unfold match_PATH_here. rewrite starts_with_append.
      change 8%nat with (String.length "[PATH:ko"). rewrite drop_append.
      rewrite (take_digits_run ds ("]" ++ post) A) by reflexivity.
      destruct ds; [congruence | reflexivity]. }
    now apply match_PATH_first.
  - cbn [Grammar.forall_units] in P. apply andb_prop in P as [Pc P].
    apply negb_true_iff in Pc.
    change (String c pre ++ "[PATH:ko" ++ ds ++ "]" ++ post)
      with (String c (pre ++ "[PATH:ko" ++ ds ++ "]" ++ post)).
    cbn [match_PATH]. rewrite (match_PATH_here_bracket _ _ Pc).
    now apply IH.
Qed.

Lemma pathway_id_found_witness :
  match_PATH ("Citrate cycle (TCA cycle) " ++ "[PATH:ko" ++ "00020" ++ "]" ++ " x")
  = Some ("ko" ++ "00020").
Proof.
  apply (pathway_id_found "Citrate cycle (TCA cycle) " "00020" " x").
  - reflexivity.
  - discriminate.
  - reflexivity.
Defined.

(** ** The gene nodes of a pathway *)

Lemma strings_no_bad (es : list (string * json)) :
  Forall (fun kv => is_string (snd kv) = true) es ->
  existsb bad_pair es = false.
Proof.
  induction 1 as [|kv es Hk _ IH]; [reflexivity|].
  cbn [existsb]. unfold bad_pair at 1, not_string. rewrite Hk, IH.
  now rewrite andb_false_r.
Qed.

Lemma createGeneNode_string (a : index) (k s : string) (level : nat) :
  scored a k = true ->
  is_empty (trim s) = false ->
  createGeneNode a k (JStr s) level = Ok (Some (gene_of a level (k, JStr s))).
Proof.
  intros N D. unfold createGeneNode, gene_of, score. cbn [trim_of bind fst snd String_of].
  rewrite D.
  assert (C : (if Abundance.truthy (get a k)
               then getHeatmapColor a k else "#FFFFFF")
              = getHeatmapColor a k).
  { destruct (Abundance.truthy (get a k)) eqn:T; [reflexivity|].
    now rewrite getHeatmapColor_falsy. }
  rewrite C.
  destruct (scored_get a k N) as [->|(x & ->)]; reflexivity.
Qed.

Lemma genes_of_strings (a : index) (level : nat) (es : list (string * json)) :
  Forall (fun kv => is_string (snd kv) = true) es ->
  Forall (fun kv => scored a (fst kv) = true) es ->
  appendM (gene_of_pair a level) es
  = Ok (map (gene_of a (level + 1)) (filter described es)).
Proof.
  induction 1 as [|[k v] es Hk _ IH]; intros N; [reflexivity|].
  apply Forall_cons_iff in N as [Nk N].
  cbn [appendM]. rewrite (IH N). cbn [snd] in Hk. cbn [fst] in Nk.
  destruct v; try discriminate Hk.
  assert (Ed : described (k, JStr s) = negb (is_empty (trim s)))
    by reflexivity.
  cbn [filter]. rewrite Ed.
  unfold gene_of_pair. cbn [trim_of bind].
  destruct (is_empty (trim s)) eqn:D; cbn [negb bind].
  - reflexivity.
  - rewrite (createGeneNode_string a k s (level + 1) Nk D). reflexivity.
Qed.

Lemma filter_entries_of_strings (l : list (list (string * json))) :
  Forall (Forall (fun kv => is_string (snd kv) = true)) l ->
  filterM entry_ok (map JObj l)
  = Ok (map JObj (filter (existsb good_pair) l)).
Proof.
  induction 1 as [|es l Hs _ IH]; [reflexivity|].
  cbn [map filterM filter]. rewrite IH.
  rewrite (entry_ok_entries (JObj es) es eq_refl).
  rewrite (someM_no_bad es (strings_no_bad es Hs)).
  cbn [bind]. now destruct (existsb good_pair es).
Qed.

Lemma genes_of_entries (a : index) (level : nat)
      (l : list (list (string * json))) :
  Forall (Forall (fun kv => is_string (snd kv) = true)) l ->
  Forall (Forall (fun kv => scored a (fst kv) = true)) l ->
  appendM (genes_of_entry a level) (map JObj l)
  = Ok (map (gene_of a (level + 1)) (filter described (List.concat l))).
Proof.
  induction 1 as [|es l Hs _ IH]; intros N; [reflexivity|].
  apply Forall_cons_iff in N as [Ns N].
  cbn [map appendM List.concat]. rewrite (IH N).
  unfold genes_of_entry at 1. cbn [Object_entries bind].
  rewrite (genes_of_strings a level es Hs Ns). cbn [bind].
  now rewrite filter_app, map_app.
Qed.

Lemma Forall_filter {A : Type} (P : A -> Prop) (f : A -> bool) (l : list A) :
  Forall P l -> Forall P (filter f l).
Proof.
  intros H. apply Forall_forall. intros x I. apply filter_In in I as [I _].
  revert x I. now apply Forall_forall.
Qed.

(** A list of gene-entry mappings with string values, the abundance
    object holding a number or nothing under each of their keys: the entries
    with a pair whose trimmed key and trimmed value are both non-empty
    survive; the node is pruned when none does; otherwise it has one gene node
    for every pair of a surviving entry whose value does not trim to empty, in
    order, with the key as identifier (be it empty), the trimmed value as
    description, the heatmap colour of the key, and a tooltip exactly when the
    abundance object holds a score under the key. *)
Theorem pathway_node_of_strings (a : index) (key : string)
        (l : list (list (string * json))) (level : nat) :
  is_empty (trim key) = false ->
  Forall (Forall (fun kv => is_string (snd kv) = true)) l ->
  Forall (Forall (fun kv => scored a (fst kv) = true)) l ->
  let kept := filter (existsb good_pair) l in
  let pairs := filter described (List.concat kept) in
  if (List.length kept =? 0)%nat
  then createNode a key (JArr (map JObj l)) level = Ok None
  else
    exists genes,
      createNode a key (JArr (map JObj l)) level
      = Ok (Some (PathwayNode
                    (level * 20) (trim key)
                    match match_PATH (trim key) with
                    | Some ko =>
                        Some ("map" ++ replace_first "ko" "" ko, map JObj kept)
                    | None => None
                    end
                    genes)) /\
      map gene_kNumber genes = map fst pairs /\
      map gene_description genes
      = map (fun kv => trim (String_of (snd kv))) pairs /\
      map gene_color genes = map (fun kv => getHeatmapColor a (fst kv)) pairs /\
      map gene_margin genes = map (fun _ => ((level + 1) * 20)%nat) pairs /\
      map (fun g => match gene_tooltip g with Some _ => true | None => false end)
          genes
      = map (fun kv => match get a (fst kv) with Some _ => true | None => false end)
            pairs.
Proof.
  intros K S N kept pairs. rewrite createNode_array, K.
  rewrite (filter_entries_of_strings l S). cbn [bind]. cbv zeta.
  rewrite length_map. fold kept.
  destruct (List.length kept =? 0)%nat; [reflexivity|].
  rewrite (genes_of_entries a level kept);
    [|now apply Forall_filter | now apply Forall_filter].
  fold pairs. cbn [bind].
  exists (map (gene_of a (level + 1)) pairs).
  split; [reflexivity|]. rewrite !map_map.
  repeat split; try reflexivity.
  apply map_ext_in. intros kv I.
  assert (Sc : scored a (fst kv) = true).
  { unfold pairs in I. apply filter_In in I as [I _].
    apply in_concat in I as (es & Ies & I).
    unfold kept in Ies. apply filter_In in Ies as [Ies _].
    rewrite Forall_forall in N. specialize (N es Ies).
    rewrite Forall_forall in N. now apply N. }
  unfold gene_of, score. cbn [gene_tooltip].
  destruct (scored_get a (fst kv) Sc) as [->|(x & ->)]; reflexivity.
Qed.

Lemma pathway_node_of_strings_witness :
  exists genes,
    createNode (loadJSON [("K00844", ANum (Fin (3 # 4)));
                          ("K12407", ANum (Fin (1 # 4)))])
               "Glycolysis [PATH:ko00010]"
               (JArr [JObj [("K00844", JStr " hexokinase "); ("", JStr "x");
                            ("K12407", JStr " ")];
                      JObj [(" ", JStr "dropped")]]) 1
    = Ok (Some (PathwayNode 20 "Glycolysis [PATH:ko00010]"
                  (Some ("map00010",
                         [JObj [("K00844", JStr " hexokinase "); ("", JStr "x");
                                ("K12407", JStr " ")]]))
                  genes)) /\
    map gene_kNumber genes = ["K00844"; ""] /\
    map gene_description genes = ["hexokinase"; "x"] /\
    map gene_color genes = ["#FF0000"; "#FFFFFF"] /\
    map gene_margin genes = [40; 40]%nat /\
    map (fun g => match gene_tooltip g with Some _ => true | None => false end)
        genes
    = [true; false].
Proof.
  refine (pathway_node_of_strings
            (loadJSON [("K00844", ANum (Fin (3 # 4)));
                       ("K12407", ANum (Fin (1 # 4)))])
            "Glycolysis [PATH:ko00010]"
            [[("K00844", JStr " hexokinase "); ("", JStr "x");
              ("K12407", JStr " ")];
             [(" ", JStr "dropped")]] 1%nat _ _ _).
  - reflexivity.
  - repeat constructor.
  - repeat constructor.
Defined.

(** ** Scalars that are not strings *)

Lemma trim_head (c : ascii) (s : string) :
  is_ws c = false -> is_empty (trim (String c s)) = false.
Proof.
  intros W. unfold trim. cbn [trimStart]. rewrite W.
  cbn [trimEnd]. now rewrite W.
Qed.

Lemma digits_fuel_head (fuel : nat) (base : Z) (upper : bool) (z : Z)
      (acc : string) :
  exists d rest,
    digits_fuel (S fuel) base upper z acc
    = String (hex_digit upper (d mod base)) rest.
Proof.
  revert z acc. induction fuel as [|fuel IH]; intros z acc.
  - exists z, acc. cbn [digits_fuel]. now destruct (z <? base).
  - cbn [digits_fuel]. destruct (z <? base).
    + now exists z, acc.
    + apply IH.
Qed.

Lemma decimal_digit_not_ws (d : Z) : is_ws (hex_digit false (d mod 10)) = false.
Proof.
  pose proof (Z.mod_pos_bound d 10 ltac:(lia)) as B.
  remember (d mod 10) as m eqn:E. clear E.
  assert (C : m = 0 \/ m = 1 \/ m = 2 \/ m = 3 \/ m = 4 \/ m = 5 \/ m = 6
              \/ m = 7 \/ m = 8 \/ m = 9) by lia.
  repeat (destruct C as [->|C]; [reflexivity|]). now subst m.
Qed.

Lemma dec_of_Z_head (z : Z) :
  exists c rest, dec_of_Z z = String c rest /\ is_ws c = false.
Proof.
  unfold dec_of_Z, signed_digits. destruct (z <? 0).
  - eexists. eexists. split; reflexivity.
  - unfold digits.
    destruct (digits_fuel_head (Z.to_nat (Z.log2 z)) 10 false z "")
      as (d & rest & ->).
    exists (hex_digit false (d mod 10)), rest. split; [reflexivity|].
    apply decimal_digit_not_ws.
Qed.

Lemma toString_pos_head (a : Q) :
  exists c rest, toString_pos a = String c rest /\ is_ws c = false.
Proof.
  unfold toString_pos.
  destruct (shortest 17 a (ilog10 a + 1) 1) as [s0 n].
  destruct (dec_of_Z_head (strip_zeros 17 s0)) as (c & rest & -> & W).
  cbv zeta.
  destruct ((_ <=? n) && (n <=? 21)).
  { cbn [append]. eauto. }
  destruct ((0 <? n) && (n <=? 21)) eqn:P.
  { apply andb_prop in P as [P _]. apply Z.ltb_lt in P.
    destruct (Z.to_nat n) as [|m] eqn:E; [lia|].
    cbn [take append]. eauto. }
  destruct ((-6 <? n) && (n <=? 0)).
  { cbn [append]. eexists. eexists. split; reflexivity. }
  destruct (_ =? 1); cbn [take append]; eauto.
Qed.

Lemma toString_head (x : num) :
  exists c rest, JSNumber.toString x = String c rest /\ is_ws c = false.
Proof.
  destruct x as [q| | |].
  - unfold JSNumber.toString. destruct (is_zero q).
    + eexists. eexists. split; reflexivity.
    + destruct (is_neg q).
      * eexists. eexists. split; reflexivity.
      * apply toString_pos_head.
  - eexists. eexists. split; reflexivity.
  - eexists. eexists. split; reflexivity.
  - eexists. eexists. split; reflexivity.
Qed.

(** A number or a boolean under a key that does not trim to empty is never
    pruned: [0], [false] and every other such value become a leaf with a shown
    value, since [String(value)] is never blank; the leaf of a boolean reads
    [true] or [false]. *)
Theorem scalar_leaf_never_pruned (a : index) (key : string) (level : nat)
        (v : json) :
  is_empty (trim key) = false ->
  match v with
  | JBool b =>
      createNode a key v level
      = Ok (Some (LeafNode (level * 20) (trim key)
                           (if b then "true" else "false")))
  | JNum _ =>
      exists value,
        shown value = true /\
        createNode a key v level
        = Ok (Some (LeafNode (level * 20) (trim key) value))
  | _ => True
  end.
Proof.
  intros K. destruct v as [ |b|x|s|l|m]; try exact I.
  - rewrite (createNode_leaf a key (JBool b) level), K. now destruct b.
  - assert (E : is_empty (trim (String_of (JNum x))) = false).
    { cbn [String_of]. destruct (toString_head x) as (c & rest & -> & W).
      now apply trim_head. }
    exists (trim (String_of (JNum x))). split; [now apply shown_trim|].
    now rewrite (createNode_leaf a key (JNum x) level), K, E.
Qed.

Lemma scalar_leaf_never_pruned_witness :
  (exists value,
     shown value = true /\
     createNode [] "count" (JNum (of_Z 0)) 2
     = Ok (Some (LeafNode 40 "count" value))) /\
  createNode [] " flag " (JBool false) 0
  = Ok (Some (LeafNode 0 "flag" "false")).
Proof.
  split.
  - exact (scalar_leaf_never_pruned [] "count" 2 (JNum (of_Z 0)) eq_refl).
  - exact (scalar_leaf_never_pruned [] " flag " 0 (JBool false) eq_refl).
Defined.

(** ** Tree node toggles *)

Lemma clicks_succ (n : nat) (t : toggle) :
  clicks (S n) t = toggle_click (clicks n t).
Proof.
  revert t. induction n as [|n IH]; intros t; [reflexivity|].
  change (clicks (S (S n)) t) with (clicks (S n) (toggle_click t)).
  rewrite IH. reflexivity.
Qed.

(** After any click the triangle of a node tells whether its children are
    collapsed (right: collapsed, down: shown), and two clicks restore the
    visibility.  A pathway node starts in agreement with its triangle; a
    category node starts with its children shown under the right triangle, so
    its first click hides them and leaves the triangle as it is. *)
Theorem toggle_agrees_after_click (t : toggle) (n : nat) :
  (button_text (clicks (S n) t) = ArrowRight
   <-> collapsed (clicks (S n) t) = true) /\
  collapsed (clicks (n + 2) t) = collapsed (clicks n t) /\
  collapsed (clicks n category_toggle) = Nat.odd n /\
  collapsed (clicks n pathway_toggle) = Nat.even n /\
  toggle_click category_toggle = mkToggle true ArrowRight.
Proof.
  assert (P : forall m u, collapsed (clicks (S m) u)
                          = negb (collapsed (clicks m u))).
  { intros m u. now rewrite clicks_succ. }
  split; [|split; [|split; [|split]]].
  - rewrite clicks_succ. unfold toggle_click. cbn [button_text collapsed].
    destruct (negb (collapsed (clicks n t))); split; congruence.
  - rewrite Nat.add_comm. cbn [Nat.add]. rewrite !P. apply negb_involutive.
  - induction n as [|n IH]; [reflexivity|].
    rewrite P, IH, Nat.odd_succ. apply Nat.negb_odd.
  - induction n as [|n IH]; [reflexivity|].
    rewrite P, IH, Nat.even_succ. apply Nat.negb_even.
  - reflexivity.
Qed.

Lemma toggle_agrees_after_click_witness :
  collapsed (clicks 3 category_toggle) = true /\
  button_text (clicks 3 category_toggle) = ArrowRight.
Proof.
  split.
  - exact (proj1 (proj2 (proj2 (toggle_agrees_after_click category_toggle 3)))).
  - apply (proj1 (toggle_agrees_after_click category_toggle 2)).
    reflexivity.
Defined.

(** ** The URL field *)






Lemma updateKEGGUrl_link (p : page) :
  link_consistent p -> link_consistent (updateKEGGUrl p).
Proof.
  intros I. unfold updateKEGGUrl.
  destruct (negb (test_map 5 (trim (pathwayInput p)))).
  - left. now destruct (JSString.truthy (trim (pathwayInput p))).
  - destruct (List.length (colorSelection p) =? 0)%nat; [exact I|].
    right. repeat split.
Qed.

Lemma handle_link (e : event) (p : page) :
  link_consistent p -> link_consistent (handle e p).
Proof.
  intros I. destruct e as [k|n|mapId ow| |v|n bg fg]; cbn [handle].
  - unfold geneClick, addECToCustomURL.
    destruct (existsb _ (colorSelection p)); [exact I|].
    apply updateKEGGUrl_link. exact I.
  - unfold removeECEntry. apply updateKEGGUrl_link. exact I.
  - unfold handleCustomization.
    destruct ((0 <? List.length (colorSelection p))%nat && negb ow); exact I.
  - exact I.
  - unfold pathwayInput_input. apply updateKEGGUrl_link.
    destruct (negb (test_map 0 v)); exact I.
  - unfold colorSelection_input. apply updateKEGGUrl_link. exact I.
Qed.

(** On every page reachable from the initial one the link and the URL
    field agree: either the field is empty and the link hidden, or the link is
    shown, points to the text of the field, and that text starts with the
    endpoint of the service. *)
Theorem reachable_link_consistent (es : list event) :
  link_consistent (run es initial).
Proof.
  unfold run.
  assert (G : forall p, link_consistent p ->
                        link_consistent (fold_left (fun p e => handle e p) es p)).
  { induction es as [|e es IH]; intros p I; [exact I|].
    cbn [fold_left]. apply IH. now apply handle_link. }
  apply G. left. split; reflexivity.
Qed.

Lemma updateKEGGUrl_messages_silent (p : page) :
  trim (pathwayInput p) = "" -> 
  messages (updateKEGGUrl p) = messages p /\ keggUrlInput (updateKEGGUrl p) = "".
Proof.
  intros E. unfold updateKEGGUrl. rewrite E. split; reflexivity.
Qed.

(** The pathway field cannot be filled by typing: a single character typed
    into the empty field never matches [map] and its digits, so the listener
    removes it again, displays the error, and the URL field is cleared. *)
Theorem keystroke_in_empty_field_undone (c : ascii) (p : page) :
  let p' := pathwayInput_input (String c "") p in
  pathwayInput p' = "" /\
  messages p'
  = (messages p ++ [("Only numbers allowed after 'map' prefix", error)])%list /\
  keggUrlInput p' = "".
Proof.
  intros p'. unfold p', pathwayInput_input.
  assert (T : test_map 0 (String c "") = false).
  { unfold test_map. cbn [starts_with]. destruct (Ascii.eqb "m" c); reflexivity. }
  rewrite T. cbn [negb slice_init].
  destruct (updateKEGGUrl_frame
              (displayMessage "Only numbers allowed after 'map' prefix" error
                 (set_pathwayInput "" (set_pathwayInput (String c "") p))))
    as (_ & P & _).
  destruct (updateKEGGUrl_messages_silent
              (displayMessage "Only numbers allowed after 'map' prefix" error
                 (set_pathwayInput "" (set_pathwayInput (String c "") p)))
              eq_refl) as (M & U).
  rewrite P, M, U. repeat split.
Qed.

Lemma slice_init_snoc (v : string) (c : ascii) :
  slice_init (v ++ String c "") = v.
Proof.
  induction v as [|a v IH]; [reflexivity|].
  cbn [append]. destruct v as [|b v]; [reflexivity|].
  cbn [append] in *. cbn [slice_init]. cbn [slice_init] in IH.
  now rewrite IH.
Qed.

(** Once the field holds [map] and at most five digits, a character typed
    at the end of the text keeps it in that form: a character that extends it
    to another such text stays, any other character is removed again.  (The
    listener drops the last character of the text, so this is about typing at
    the end only.) *)
Theorem keystroke_keeps_valid_prefix (v : string) (c : ascii) (p : page) :
  test_map 0 v = true ->
  let p' := pathwayInput_input (v ++ String c "") p in
  pathwayInput p'
  = (if test_map 0 (v ++ String c "") then v ++ String c "" else v) /\
  test_map 0 (pathwayInput p') = true.
Proof.
  intros V p'. unfold p', pathwayInput_input.
  destruct (test_map 0 (v ++ String c "")) eqn:T; cbn [negb].
  - rewrite (proj1 (proj2 (updateKEGGUrl_frame _))). cbn [set_pathwayInput pathwayInput].
    now split.
  - rewrite (proj1 (proj2 (updateKEGGUrl_frame _))).
    cbn [displayMessage set_pathwayInput pathwayInput].
    rewrite slice_init_snoc. now split.
Qed.

Lemma keystroke_keeps_valid_prefix_witness :
  pathwayInput (pathwayInput_input ("map00" ++ "x") initial) = "map00" /\
  pathwayInput (pathwayInput_input ("map00" ++ "0") initial) = "map000" /\
  pathwayInput (pathwayInput_input ("map00010" ++ "5") initial) = "map00010".
Proof.
  split; [|split].
  - exact (proj1 (keystroke_keeps_valid_prefix "map00" "x" initial eq_refl)).
  - exact (proj1 (keystroke_keeps_valid_prefix "map00" "0" initial eq_refl)).
  - exact (proj1 (keystroke_keeps_valid_prefix "map00010" "5" initial eq_refl)).
Defined.

(** ** Adding, removing and importing entries *)











(** ** Characters of a selection segment *)






Lemma generateHeatmapKEGGUrl_unreserved_witness :
  generateHeatmapKEGGUrl
    (loadJSON [("K00844", ANum (Fin (3 # 4))); ("K12407", ANum (Fin (1 # 4)))])
    "map00010" ["K00844"; "K12407"]
  = Grammar.url "map00010"
      [Grammar.single_segment ("K00844", "#FF0000");
       Grammar.single_segment ("K12407", "#0000FF")].
Proof.
  apply (generateHeatmapKEGGUrl_unreserved
           (loadJSON [("K00844", ANum (Fin (3 # 4)));
                      ("K12407", ANum (Fin (1 # 4)))])
           "map00010" ["K00844"; "K12407"]).
  repeat constructor.
Defined.

